(** * manual_parallel.py: BMC fan control, embedded and verified

    A shallow embedding of [manual_parallel.py]: the [Fans] session client
    and fan controller, the per-node worker [control_fan], the range parser
    [parse_node_range] and the orchestrator [main].

    Modelling conventions.
    - A Python [int] is a [Z]; a [str] is a [string] whose characters are the
      code points 0..255.  The interpreter's resource limits (memory, the
      optional cap on the number of digits [int] accepts) are not modelled:
      [Py.range] lists a range of any length, where the interpreter raises
      [OverflowError] or [MemoryError] for one it cannot hold.
    - A [dict] used as a map is a [gmap]; [Fans.headers] is one such map per
      process, held in the process state and shared by every instance.
    - A function that may raise returns a [result]; where the only exception
      it can raise is [ValueError] it returns an [option], [None] standing
      for the raise.
    - [print] appends one line to the process's standard output; every call
      into [requests] appends the request to the list of requests the process
      has put on the wire and obtains its outcome from the [network].
    - The thread pool of [change_fans] is a transition system whose atomic
      steps are the library calls of the tasks and of the collecting loop;
      theorems quantify over every interleaving, and a scheduler picks one
      to run the program as a function.
    - Every exception is an instance of [Exception], as those of
      [requests], of JSON decoding and of subscripting are.
    - Each worker process of [main] has a state and a world of its own; how
      the outputs of the processes interleave on the terminal is not
      modelled.

    [Fans.get_fans], which no path calls, is left out: it prints the
    elements of a nested JSON value, whose text is not modelled. *)

From Stdlib Require Import ZArith String Ascii List Lia.
From Stdlib Require Import Decimal DecimalString DecimalPos DecimalN.
From stdpp Require Import base option list gmap strings relations sorting.

Open Scope Z_scope.
Open Scope string_scope.

(** ** Python primitives *)

Module Py.

(** [str(n)] for an [int]. *)
Definition str_int (n : Z) : string := NilZero.string_of_int (Z.to_int n).

(** [", ".join(parts)]. *)
Fixpoint join (sep : string) (parts : list string) : string :=
  match parts with
  | [] => ""
  | [p] => p
  | p :: rest => p ++ sep ++ join sep rest
  end.

(** [str(l)] for a list of [int]. *)
Definition str_list (l : list Z) : string :=
  "[" ++ join ", " (map str_int l) ++ "]".

(** The characters [int] skips around a literal: tab to carriage return
    and the space, and the two blanks above 127 (next line, no-break
    space), which [int] turns into spaces before it reads the literal. *)
Definition is_space (c : ascii) : bool :=
  let n := nat_of_ascii c in
  ((9 <=? n) && (n <=? 13) || (n =? 32) || (n =? 133) || (n =? 160))%nat.

Definition digit_value (c : ascii) : option Z :=
  let n := nat_of_ascii c in
  if ((48 <=? n) && (n <=? 57))%nat then Some (Z.of_nat n - 48) else None.

Fixpoint skip_spaces (s : string) : string :=
  match s with
  | String c r => if is_space c then skip_spaces r else s
  | EmptyString => s
  end.

(** The digit loop of [int]: digits and single underscores, the value
    accumulated in [acc]; [prev] is the character read before.  It stops at
    the first character that is neither, and fails on a doubled or a
    trailing underscore. *)
Fixpoint scan_digits (prev : ascii) (acc : Z) (s : string) : option (Z * string) :=
  match s with
  | String c r =>
      match digit_value c with
      | Some d => scan_digits c (10 * acc + d) r
      | None =>
          if Ascii.eqb c "_" then
            if Ascii.eqb prev "_" then None else scan_digits c acc r
          else if Ascii.eqb prev "_" then None else Some (acc, s)
      end
  | EmptyString => if Ascii.eqb prev "_" then None else Some (acc, s)
  end.

(** [int(s)] in base 10: optional blanks, an optional sign, digits with
    single underscores between them, optional blanks.  [None] is
    [ValueError]. *)
Definition int (s : string) : option Z :=
  let s1 := skip_spaces s in
  let '(sign, s2) :=
    match s1 with
    | String "+" r => (1, r)
    | String "-" r => (-1, r)
    | _ => (1, s1)
    end in
  match s2 with
  | String c _ =>
      match digit_value c with
      | Some _ =>
          match scan_digits "000" 0 s2 with
          | Some (v, rest) =>
              match skip_spaces rest with
              | EmptyString => Some (sign * v)
              | _ => None
              end
          | None => None
          end
      | None => None
      end
  | EmptyString => None
  end.

(** [sep in s] for a one-character [sep]. *)
Fixpoint contains (sep : ascii) (s : string) : bool :=
  match s with
  | String c r => Ascii.eqb c sep || contains sep r
  | EmptyString => false
  end.

(** [s.split(sep)] for a one-character [sep]: never empty, one more part
    than there are separators. *)
Fixpoint split (sep : ascii) (s : string) : list string :=
  match s with
  | String c r =>
      if Ascii.eqb c sep then "" :: split sep r
      else match split sep r with
           | p :: ps => String c p :: ps
           | [] => [String c ""]
           end
  | EmptyString => [""]
  end.

(** [list(range(start, stop))]. *)
Definition range (start stop : Z) : list Z := seqZ start (stop - start).

End Py.

(** ** Node range parsing (lines 95-106) *)

(** [start, end = map(int, parts)]: the parts are converted in order as the
    unpacking asks for them; a failed conversion, fewer or more than two
    values all raise [ValueError]. *)
Definition unpack_two_ints (parts : list string) : option (Z * Z) :=
  match parts with
  | [p1; p2] =>
      match Py.int p1 with
      | Some a => match Py.int p2 with Some b => Some (a, b) | None => None end
      | None => None
      end
  | _ => None
  end.

Definition parse_node_range (node_spec : string) : option (list Z) :=
  if Py.contains "-" node_spec then
    match unpack_two_ints (Py.split "-" node_spec) with
    | Some (start, end_) => Some (Py.range start (end_ + 1))
    | None => None
    end
  else
    match Py.int node_spec with
    | Some n => Some [n]
    | None => None
    end.

(** ** Values, exceptions, requests and responses *)

(** The values that travel in headers, request bodies and JSON replies:
    JSON scalars (floats and nested containers are left out). *)
Inductive pyval : Type :=
  | PInt (n : Z)
  | PStr (s : string)
  | PBool (b : bool)
  | PNone.

(** [str(v)], which is also what an f-string field prints. *)
Definition py_str (v : pyval) : string :=
  match v with
  | PInt n => Py.str_int n
  | PStr s => s
  | PBool true => "True"
  | PBool false => "False"
  | PNone => "None"
  end.

(** An exception deriving from [Exception]: its class name and [str(e)]. *)
Record exn : Type := Exn { exn_type : string; exn_str : string }.

(** [KeyError(key)] for a key that is a plain identifier, as every key of
    the program is: [str(e)] is the key between single quotes. *)
Definition KeyError (key : string) : exn := Exn "KeyError" ("'" ++ key ++ "'").
Definition IndexError : exn := Exn "IndexError" "list index out of range".
Definition ValueError (msg : string) : exn := Exn "ValueError" msg.

Inductive result (A : Type) : Type :=
  | Ok (a : A)
  | Raise (e : exn).
Arguments Ok {A} a.
Arguments Raise {A} e.

Inductive http_method : Type := GET | POST | PUT.

Inductive payload : Type :=
  | NoBody
  | FormData (fields : list (string * pyval))
  | JsonData (fields : list (string * pyval)).

(** One call into [requests] (always with [verify=False]). *)
Record request : Type := Request {
  req_method : http_method;
  req_url : string;
  req_headers : gmap string pyval;
  req_payload : payload
}.

(** What [response.json()] followed by a subscript can do: the body is a
    JSON object, or decoding it or subscripting the decoded value raises. *)
Inductive body : Type :=
  | BodyDict (fields : gmap string pyval)
  | BodyRaises (e : exn).

Record response : Type := Response {
  resp_set_cookie : option string;   (* the Set-Cookie header, when present *)
  resp_text : string;
  resp_json : body
}.

(** The world outside the process: the outcome of a call into [requests]
    given the requests this process has made before it. *)
Definition network : Type := list request -> request -> result response.

(** [response.json()[key]]. *)
Definition json_item (r : response) (key : string) : result pyval :=
  match resp_json r with
  | BodyDict d =>
      match d !! key with
      | Some v => Ok v
      | None => Raise (KeyError key)
      end
  | BodyRaises e => Raise e
  end.

(** [response.headers["Set-Cookie"]]; the headers of a response are a
    case-insensitive dictionary that reports the lowered key. *)
Definition set_cookie_header (r : response) : result string :=
  match resp_set_cookie r with
  | Some v => Ok v
  | None => Raise (KeyError "set-cookie")
  end.

(** ** The pattern of line 37 *)

Fixpoint strip_prefix (p s : string) : option string :=
  match p with
  | EmptyString => Some s
  | String a p' =>
      match s with
      | String b s' => if Ascii.eqb a b then strip_prefix p' s' else None
      | EmptyString => None
      end
  end.

(** [(.*?);] at the head of [s]: the shortest run of characters other than
    a newline that a semicolon follows. *)
Fixpoint lazy_until_semicolon (s : string) : option string :=
  match s with
  | String c r =>
      if Ascii.eqb c ";" then Some ""
      else if Ascii.eqb c "010" then None
      else option_map (String c) (lazy_until_semicolon r)
  | EmptyString => None
  end.

Definition match_session_at (s : string) : option string :=
  match strip_prefix "QSESSIONID=" s with
  | Some rest => lazy_until_semicolon rest
  | None => None
  end.

(** The group of the leftmost match of [QSESSIONID=(.*?);] in [s], that is
    the first element of [re.findall], when there is one. *)
Fixpoint first_session_id (s : string) : option string :=
  match match_session_at s with
  | Some tok => Some tok
  | None =>
      match s with
      | String _ r => first_session_id r
      | EmptyString => None
      end
  end.

(** [re.findall("QSESSIONID=(.*?);", s)[0]]. *)
Definition findall_first (s : string) : result string :=
  match first_session_id s with
  | Some tok => Ok tok
  | None => Raise IndexError
  end.

(** ** The process state and its monad *)

(** What one OS process holds: the class attribute [Fans.headers] (one
    dictionary, which [self.headers] reaches from any instance since
    [__init__] sets no attribute of that name), the requests made so far
    and the lines printed so far. *)
Record process : Type := Process {
  Fans_headers : gmap string pyval;
  wire : list request;
  stdout : list string
}.

(** The class body, lines 12-15. *)
Definition user_agent : string :=
  "Mozilla/5.0 (Windows NT 10.0; Win64; x64) AppleWebKit/537.36 (KHTML, like Gecko) Chrome/108.0.0.0 Safari/537.36 Edg/117.0.2045.60".

Definition initial_headers : gmap string pyval :=
  <["User-Agent" := PStr user_agent]>
    (<["content-type" := PStr "application/json"]> ∅).

Definition initial_process : process := Process initial_headers [] [].

Definition M (A : Type) : Type := process -> result A * process.

Definition ret {A} (a : A) : M A := fun p => (Ok a, p).
Definition raise {A} (e : exn) : M A := fun p => (Raise e, p).
Definition bind {A B} (c : M A) (k : A -> M B) : M B :=
  fun p =>
    match c p with
    | (Ok a, p') => k a p'
    | (Raise e, p') => (Raise e, p')
    end.
Definition lift {A} (r : result A) : M A := fun p => (r, p).

Notation "'let*' x ':=' c 'in' k" := (bind c (fun x => k))
  (at level 10, x name, c at level 100, k at level 200,
   format "'[v' 'let*'  x  ':='  c  'in' '/' k ']'").

Definition print (line : string) : M unit :=
  fun p => (Ok tt, Process (Fans_headers p) (wire p) (stdout p ++ [line])).

(** [self.headers[key] = v]. *)
Definition set_header (key : string) (v : pyval) : M unit :=
  fun p => (Ok tt, Process (<[key := v]> (Fans_headers p)) (wire p) (stdout p)).

(** An instance of [Fans], as [__init__] leaves it (lines 17-20). *)
Record Fans : Type := Build_Fans {
  host : string;
  username : string;
  password : string
}.

(** [self.headers]: the attribute is not found on the instance and is
    taken from the class. *)
Definition self_headers (self : Fans) (p : process) : gmap string pyval :=
  Fans_headers p.

(** ** The session client and fan controller (class [Fans]) *)

Section Worker.

Variable net : network.

(** A call into [requests] with [headers=self.headers]: the request goes on
    the wire with the headers as they are now, and the network decides
    whether the call returns a response or raises. *)
Definition requests_call (self : Fans) (m : http_method) (url : string)
    (data : payload) : M response :=
  fun p =>
    let req := Request m url (self_headers self p) data in
    (net (wire p) req, Process (Fans_headers p) (wire p ++ [req]) (stdout p)).

(** Lines 22-25. *)
Definition get_random (self : Fans) : M pyval :=
  let url := "https://" ++ host self ++ "/api/randomtag" in
  let* res := requests_call self GET url NoBody in
  lift (json_item res "random").

(** Lines 27-41. *)
Definition get_session (self : Fans) (random_string : pyval) : M unit :=
  let url := "https://" ++ host self ++ "/api/session" in
  let* _ := set_header "content-type"
              (PStr "application/x-www-form-urlencoded; charset=UTF-8") in
  let data := FormData [("encrypt_flag", PInt 0);
                        ("username", PStr (username self));
                        ("password", PStr (password self));
                        ("login_tag", PStr (py_str random_string))] in
  let* response := requests_call self POST url data in
  let* cookie := lift (set_cookie_header response) in
  let* token := lift (findall_first cookie) in
  let* csrf := lift (json_item response "CSRFToken") in
  let* _ := set_header "X-Csrftoken" csrf in
  let* _ := set_header "Cookie"
              (PStr ("lang=zh-cn;QSESSIONID=" ++ token ++ "; refresh_disable=1")) in
  set_header "content-type" (PStr "application/json").

(** Lines 51-56. *)
Definition fans_mode (self : Fans) (mode : string) : M unit :=
  let url := "https://" ++ host self ++ "/api/settings/fans-mode" in
  let data := JsonData [("control_mode", PStr mode)] in
  let* response := requests_call self PUT url data in
  print ("response: " ++ resp_text response).

(** *** The fan tasks and the thread pool (lines 58-74) *)

(** The state of one submitted task: waiting for a thread, past its
    [requests.put] with the outcome in hand, or done with its result. *)
Inductive future : Type :=
  | Queued
  | Running (r : result response)
  | Finished (r : result Z).

(** The futures in submission order (the task at position [i] is the one
    for fan [i]) and the positions [as_completed] has handed out. *)
Record pool : Type := Pool {
  futures : list future;
  yielded : list nat
}.

Inductive action : Type :=
  | Submit               (* main thread: [executor.submit], line 69 *)
  | Send (i : nat)       (* task [i]: [requests.put], line 62 *)
  | Finish (i : nat)     (* task [i]: lines 63-65 *)
  | Collect (i : nat).   (* main thread: one round of the loop, lines 70-74 *)

(** Lines 60-62: the request the nested [change_single_fan] makes for fan
    [i]. *)
Definition fan_request (self : Fans) (rate : Z) (hdrs : gmap string pyval)
    (i : nat) : request :=
  Request PUT
    ("https://" ++ host self ++ "/api/settings/fan/" ++ Py.str_int (Z.of_nat i))
    hdrs (JsonData [("duty", PInt rate)]).

(** Lines 63-64: the line [change_single_fan] prints, unless the call or
    the reading of the reply raised. *)
Definition fan_report (i : nat) (r : result response) : result string :=
  match r with
  | Ok resp =>
      match json_item resp "duty" with
      | Ok duty =>
          Ok ("The index " ++ Py.str_int (Z.of_nat i) ++ " fan change to "
              ++ py_str duty ++ " %")
      | Raise e => Raise e
      end
  | Raise e => Raise e
  end.

(** Line 74. *)
Definition fan_error_line (e : exn) : string :=
  "An error occurred while changing fan: " ++ exn_str e.

Definition pool_state : Type := process * pool.

Definition do_action (self : Fans) (rate : Z) (a : action) (st : pool_state)
    : pool_state :=
  let '(p, pl) := st in
  match a with
  | Submit => (p, Pool (futures pl ++ [Queued]) (yielded pl))
  | Send i =>
      match futures pl !! i with
      | Some Queued =>
          let req := fan_request self rate (self_headers self p) i in
          (Process (Fans_headers p) (wire p ++ [req]) (stdout p),
           Pool (<[i := Running (net (wire p) req)]> (futures pl)) (yielded pl))
      | _ => st
      end
  | Finish i =>
      match futures pl !! i with
      | Some (Running r) =>
          match fan_report i r with
          | Ok line =>
              (Process (Fans_headers p) (wire p) (stdout p ++ [line]),
               Pool (<[i := Finished (Ok (Z.of_nat i))]> (futures pl)) (yielded pl))
          | Raise e =>
              (p, Pool (<[i := Finished (Raise e)]> (futures pl)) (yielded pl))
          end
      | _ => st
      end
  | Collect i =>
      match futures pl !! i with
      | Some (Finished (Ok _)) => (p, Pool (futures pl) (yielded pl ++ [i]))
      | Some (Finished (Raise e)) =>
          (Process (Fans_headers p) (wire p) (stdout p ++ [fan_error_line e]),
           Pool (futures pl) (yielded pl ++ [i]))
      | _ => st
      end
  end.

(** What the task at position [i] or the main thread on its behalf can do
    next.  A queued task can always start (the pool has as many threads as
    there are tasks); a finished one is collected once, after the last
    submission. *)
Definition future_actions (n : nat) (pl : pool) (i : nat) (f : future)
    : list action :=
  match f with
  | Queued => [Send i]
  | Running _ => [Finish i]
  | Finished _ =>
      if bool_decide (length (futures pl) = n /\ i ∉ yielded pl)
      then [Collect i] else []
  end.

(** The steps enabled in a state of the pool of [n] tasks. *)
Definition enabled (n : nat) (st : pool_state) : list action :=
  let pl := snd st in
  (if bool_decide (length (futures pl) < n)%nat then [Submit] else [])
  ++ mjoin (imap (future_actions n pl) (futures pl)).

Definition pool_step (self : Fans) (rate : Z) (n : nat)
    (st st' : pool_state) : Prop :=
  exists a, a ∈ enabled n st /\ st' = do_action self rate a st.

(** The pool under a scheduler: at its [k]-th step the scheduler's number
    picks one of the enabled steps; the run ends when none is. *)
Fixpoint run_pool (self : Fans) (rate : Z) (n : nat) (sched : nat -> nat)
    (fuel k : nat) (st : pool_state) : pool_state :=
  match fuel with
  | O => st
  | S fuel' =>
      match enabled n st with
      | [] => st
      | (a0 :: _) as acts =>
          let a := nth (sched k mod length acts) acts a0 in
          run_pool self rate n sched fuel' (S k) (do_action self rate a st)
      end
  end.

(** Lines 58-74.  [ThreadPoolExecutor] refuses a pool without threads;
    otherwise every task takes four steps (submit, send, finish, collect). *)
Definition change_fans (sched : nat -> nat) (self : Fans) (rate : Z)
    (fans : Z) : M unit :=
  if bool_decide (fans <= 0) then
    raise (ValueError "max_workers must be greater than 0")
  else
    fun p =>
      let n := Z.to_nat fans in
      (Ok tt, fst (run_pool self rate n sched (4 * n) 0 (p, Pool [] []))).

(** ** The node worker (lines 76-84) *)

Definition control_fan (sched : nat -> nat) (host username password : string)
    (rate : Z) (fans : Z) : M unit :=
  let node_f := Build_Fans host username password in
  let* random_string := get_random node_f in
  let* _ := get_session node_f random_string in
  let* _ := fans_mode node_f "manual" in
  let* _ := change_fans sched node_f rate fans in
  print ("Completed fan control for node " ++ host).

End Worker.

(** ** The orchestrator (lines 108-186) *)

(** Lines 109-124: the host table. *)
Definition node_hosts : gmap Z string :=
  list_to_map [(1, "IP_ADDRESS"); (2, "IP_ADDRESS"); (3, "IP_ADDRESS");
               (4, "IP_ADDRESS"); (5, "IP_ADDRESS")].

Definition admin_username : string := "admin".
Definition admin_password : string := "admin".

(** Lines 134-138. *)
Definition usage_lines (prog : string) (rate : Z) : list string :=
  [ "Usage: python " ++ prog ++ " <node_spec> [rate]";
    "Examples:";
    "  python " ++ prog ++ " 1-5 30  # Set 30% fan speed on nodes 1-5";
    "  python " ++ prog ++ " 1 20    # Set 20% fan speed on node 1";
    "Using default: all nodes at " ++ Py.str_int rate ++ "% fan speed" ].

(** Line 146. *)
Definition node_warning (node : Z) : string :=
  "Warning: Node " ++ Py.str_int node ++ " is out of range (1-5). It will be skipped.".

(** Lines 144-146: the warnings the loop over the parsed nodes prints. *)
Fixpoint node_warnings (nodes : list Z) : list string :=
  match nodes with
  | [] => []
  | node :: rest =>
      ((if ((node <? 1) || (5 <? node))%Z then [node_warning node] else [])
       ++ node_warnings rest)%list
  end.

(** Line 150. *)
Definition invalid_spec_line (spec : string) : string :=
  "Invalid node specification: " ++ spec ++ ". Using all nodes.".

(** Lines 141-150: the nodes to control after the first argument, and what
    is printed on the way.  When parsing raises [ValueError] the assignment
    of line 142 has not happened and [nodes_to_control] keeps the value it
    had. *)
Definition select_nodes (nodes_to_control : list Z) (spec : string)
    : list Z * list string :=
  match parse_node_range spec with
  | Some nodes =>
      (filter (fun n => 1 <= n <= 5) nodes, node_warnings nodes)
  | None => (nodes_to_control, [invalid_spec_line spec])
  end.

(** Line 157. *)
Definition rate_warning (rate : Z) : string :=
  "Warning: Fan rate should be between 0-100. Using provided value: "
  ++ Py.str_int rate ++ "%".

(** Line 159. *)
Definition invalid_rate_line (arg : string) (rate : Z) : string :=
  "Invalid rate parameter: " ++ arg ++ ". Using default rate: "
  ++ Py.str_int rate ++ "%".

(** Lines 153-159: the rate after the optional second argument.  When
    [int] raises, the assignment of line 155 has not happened. *)
Definition select_rate (rate : Z) (rest : list string) : Z * list string :=
  match rest with
  | [] => (rate, [])
  | arg :: _ =>
      match Py.int arg with
      | Some v =>
          (v, if ((v <? 0) || (100 <? v))%Z then [rate_warning v] else [])
      | None => (rate, [invalid_rate_line arg rate])
      end
  end.

Record settings : Type := Settings {
  set_rate : Z;
  set_nodes : list Z;
  set_out : list string
}.

(** Line 161. *)
Definition settings_line (rate : Z) (nodes_to_control : list Z) : string :=
  "Setting fan rate to " ++ Py.str_int rate ++ "% for nodes: "
  ++ Py.str_list nodes_to_control.

(** Lines 126-161, for [sys.argv = prog :: args]. *)
Definition main_settings (prog : string) (args : list string) : settings :=
  let rate := 20 in
  let nodes_to_control := Py.range 1 6 in
  let '(rate, nodes_to_control, out) :=
    match args with
    | [] => (rate, nodes_to_control, usage_lines prog rate)
    | spec :: rest =>
        let '(nodes, out1) := select_nodes nodes_to_control spec in
        let '(rate', out2) := select_rate rate rest in
        (rate', nodes, (out1 ++ out2)%list)
    end in
  Settings rate nodes_to_control
    (out ++ [settings_line rate nodes_to_control])%list.

(** The arguments of one worker process (line 170). *)
Record worker_args : Type := WorkerArgs {
  wa_host : string;
  wa_username : string;
  wa_password : string;
  wa_rate : Z;
  wa_fans : Z
}.

(** Lines 166-172: [if host:] holds for a host that is found and is not
    the empty string. *)
Fixpoint resolve_hosts (rate fans : Z) (nodes : list Z)
    : list worker_args * list string :=
  match nodes with
  | [] => ([], [])
  | node_num :: rest =>
      let '(hosts, out) := resolve_hosts rate fans rest in
      match node_hosts !! node_num with
      | Some (String c h) =>
          (WorkerArgs (String c h) admin_username admin_password rate fans
             :: hosts, out)
      | _ =>
          (hosts,
           ("Node " ++ Py.str_int node_num ++ " not found in configuration")
             :: out)
      end
  end.

(** What surrounds one worker process: the network it talks to and the
    scheduling of its threads. *)
Record world : Type := World {
  world_net : network;
  world_sched : nat -> nat
}.

(** Lines 176-180: the process started for [args].  It begins with the
    module as imported, [Fans.headers] as the class body builds it, and
    runs [control_fan]; the state it ends in is its own. *)
Definition run_worker (w : world) (args : worker_args)
    : result unit * process :=
  control_fan (world_net w) (world_sched w) (wa_host args) (wa_username args)
    (wa_password args) (wa_rate args) (wa_fans args) initial_process.

Record main_result : Type := MainResult {
  main_stdout : list string;
  main_workers : list (result unit * process)
}.

(** Lines 108-186: the [k]-th process started lives in [worlds k]. *)
Definition main (worlds : nat -> world) (prog : string) (args : list string)
    : main_result :=
  let s := main_settings prog args in
  let fans := 12 in
  let '(hosts_to_control, out) := resolve_hosts (set_rate s) fans (set_nodes s) in
  let workers := imap (fun k a => run_worker (worlds k) a) hosts_to_control in
  MainResult
    (set_out s ++ out ++ ["All fan control operations completed!"])%list
    workers.

(** ** Definitions used in the statements and proofs *)

(** The value the digit loop computes on the digits [d] from [acc]. *)
Fixpoint uint_value (acc : Z) (d : uint) : Z :=
  match d with
  | Nil => acc
  | D0 l => uint_value (10 * acc + 0) l
  | D1 l => uint_value (10 * acc + 1) l
  | D2 l => uint_value (10 * acc + 2) l
  | D3 l => uint_value (10 * acc + 3) l
  | D4 l => uint_value (10 * acc + 4) l
  | D5 l => uint_value (10 * acc + 5) l
  | D6 l => uint_value (10 * acc + 6) l
  | D7 l => uint_value (10 * acc + 7) l
  | D8 l => uint_value (10 * acc + 8) l
  | D9 l => uint_value (10 * acc + 9) l
  end.


(** The worker arguments of a node of the host table (lines 109-124 and
    170): every configured node has the same host, user and password. *)
Definition configured_args (rate fans : Z) : worker_args :=
  WorkerArgs "IP_ADDRESS" admin_username admin_password rate fans.


(** The request [get_session] sends (lines 28-36) from a process whose
    header map is [hdrs]: the content type is switched to the form
    encoding before the call. *)
Definition form_content_type : pyval :=
  PStr "application/x-www-form-urlencoded; charset=UTF-8".

Definition session_request (self : Fans) (random_string : pyval)
    (hdrs : gmap string pyval) : request :=
  Request POST ("https://" ++ host self ++ "/api/session")
    (<["content-type" := form_content_type]> hdrs)
    (FormData [("encrypt_flag", PInt 0);
               ("username", PStr (username self));
               ("password", PStr (password self));
               ("login_tag", PStr (py_str random_string))]).

(** The request [get_random] sends (lines 23-24). *)
Definition random_request (self : Fans) (hdrs : gmap string pyval) : request :=
  Request GET ("https://" ++ host self ++ "/api/randomtag") hdrs NoBody.

(** The request [fans_mode] sends (lines 52-55). *)
Definition mode_request (self : Fans) (mode : string)
    (hdrs : gmap string pyval) : request :=
  Request PUT ("https://" ++ host self ++ "/api/settings/fans-mode") hdrs
    (JsonData [("control_mode", PStr mode)]).

(** The header map a successful [get_session] leaves (lines 29, 38-41). *)
Definition session_headers (token : string) (csrf : pyval)
    (hdrs : gmap string pyval) : gmap string pyval :=
  <["content-type" := PStr "application/json"]>
    (<["Cookie" := PStr ("lang=zh-cn;QSESSIONID=" ++ token ++ "; refresh_disable=1")]>
       (<["X-Csrftoken" := csrf]>
          (<["content-type" := form_content_type]> hdrs))).

(** *** The pattern of line 37, as the [re] module reads it *)

(** [QSESSIONID=(.*?);] matches in [cookie] right after the prefix [pre],
    with group [tok]: the literal [QSESSIONID=] stands there, [tok] follows
    it and a semicolon follows [tok].  The lazy group stops at the first
    semicolon and [.] matches no newline, so [tok] holds neither. *)
Definition session_match (cookie pre tok : string) : Prop :=
  (exists post, cookie = pre ++ "QSESSIONID=" ++ tok ++ ";" ++ post) /\
  Py.contains ";" tok = false /\ Py.contains "010" tok = false.

(** [tok] is the group of the first match, which is what
    [re.findall(...)[0]] is: the pattern matches after [pre] and after no
    shorter prefix. *)
Definition first_session_match (cookie tok : string) : Prop :=
  exists pre,
    session_match cookie pre tok /\
    forall pre' tok',
      session_match cookie pre' tok' ->
      (String.length pre <= String.length pre')%nat.

(** *** The thread pool: histories, outcomes, progress and invariant *)

(** What is on the wire when the [k]-th request of the pool is sent, the
    requests having gone out in the order [order] of fan indices. *)
Definition fan_history (self : Fans) (rate : Z) (hdrs : gmap string pyval)
    (wire0 : list request) (order : list nat) (k : nat) : list request :=
  (wire0 ++ map (fan_request self rate hdrs) (take k order))%list.

(** The outcome of the [k]-th request of the pool, which is for fan [i]. *)
Definition fan_outcome (net : network) (self : Fans) (rate : Z)
    (hdrs : gmap string pyval) (wire0 : list request) (order : list nat)
    (k i : nat) : result response :=
  net (fan_history self rate hdrs wire0 order k) (fan_request self rate hdrs i).

(** How far a task is: the steps it has taken after its submission. *)
Definition future_weight (f : future) : nat :=
  match f with
  | Queued => 0
  | Running _ => 1
  | Finished _ => 2
  end.

(** The number of steps a pool state is away from the empty pool. *)
Definition pool_progress (pl : pool) : nat :=
  (length (futures pl) + sum_list (map future_weight (futures pl))
   + length (yielded pl))%nat.

(** What holds of every state of the pool of [n] tasks started in process
    [p0], the requests sent so far being those of the fans [order]. *)
Record pool_inv (net : network) (self : Fans) (rate : Z) (n : nat)
    (p0 : process) (order : list nat) (st : pool_state) : Prop := PoolInv {
  inv_headers : Fans_headers (fst st) = Fans_headers p0;
  inv_wire :
    wire (fst st) =
      (wire p0 ++ map (fan_request self rate (Fans_headers p0)) order)%list;
  inv_order_nodup : NoDup order;
  inv_order :
    forall i, i ∈ order <->
      exists f, futures (snd st) !! i = Some f /\ f <> Queued;
  inv_bound : (length (futures (snd st)) <= n)%nat;
  inv_yielded_nodup : NoDup (yielded (snd st));
  inv_yielded :
    forall i, i ∈ yielded (snd st) ->
      length (futures (snd st)) = n /\
      exists res, futures (snd st) !! i = Some (Finished res);
  inv_running :
    forall i r, futures (snd st) !! i = Some (Running r) ->
      exists k, order !! k = Some i /\
        r = fan_outcome net self rate (Fans_headers p0) (wire p0) order k i;
  inv_finished :
    forall i res, futures (snd st) !! i = Some (Finished res) ->
      exists k, order !! k = Some i /\
        match fan_report i
                (fan_outcome net self rate (Fans_headers p0) (wire p0) order k i)
        with
        | Ok line => res = Ok (Z.of_nat i) /\ line ∈ stdout (fst st)
        | Raise e =>
            res = Raise e /\
            (i ∈ yielded (snd st) -> fan_error_line e ∈ stdout (fst st))
        end;
  inv_stdout : stdout p0 `prefix_of` stdout (fst st)
}.

(** *** Mocked BMCs, for the examples *)

(** A BMC that hands out a fixed challenge, a fixed session cookie and CSRF
    token, and echoes the duty it is asked to apply. *)
Definition echo_network : network :=
  fun _ req =>
    match req_method req, req_payload req with
    | GET, _ =>
        Ok (Response None "" (BodyDict {["random" := PStr "r4nd0m"]}))
    | POST, _ =>
        Ok (Response (Some "QSESSIONID=abc123; Path=/; HttpOnly") ""
              (BodyDict {["CSRFToken" := PStr "t0k3n"]}))
    | PUT, JsonData [("duty", d)] =>
        Ok (Response None "" (BodyDict {["duty" := d]}))
    | PUT, _ => Ok (Response None "ok" (BodyDict ∅))
    end.


(** The same BMC behind a transport that fails on the URL [bad]. *)
Definition flaky_network (bad : string) : network :=
  fun hist req =>
    if String.eqb (req_url req) bad
    then Raise (Exn "ConnectionError" "connection refused")
    else echo_network hist req.

(** The steps of [control_fan] before the fan tasks (lines 78-82). *)
Definition node_login (net : network) (self : Fans) : M unit :=
  let* random_string := get_random net self in
  let* _ := get_session net self random_string in
  fans_mode net self "manual".

(** Line 64, as a function of what was read back. *)
Definition fan_report_line (i : nat) (duty : pyval) : string :=
  "The index " ++ Py.str_int (Z.of_nat i) ++ " fan change to "
  ++ py_str duty ++ " %".

(** What a final state of the pool of [n] tasks started in [p] looks like
    from outside. *)
Definition pool_outcome (net : network) (self : Fans) (rate : Z) (n : nat)
    (p p' : process) (order : list nat) : Prop :=
  order ≡ₚ seq 0 n /\
  Fans_headers p' = Fans_headers p /\
  wire p' = (wire p ++ map (fan_request self rate (Fans_headers p)) order)%list /\
  stdout p `prefix_of` stdout p' /\
  forall k i, order !! k = Some i ->
    match fan_report i
            (fan_outcome net self rate (Fans_headers p) (wire p) order k i)
    with
    | Ok line => line ∈ stdout p'
    | Raise e => fan_error_line e ∈ stdout p'
    end.


(** [String.append] on a literal head, which stdpp keeps [simpl] from
    unfolding. *)
Ltac app_simpl :=
  repeat match goal with
  | |- context [String.append EmptyString ?x] =>
      change (String.append EmptyString x) with x
  | |- context [String.append (String ?a ?x) ?y] =>
      change (String.append (String a x) y) with (String a (String.append x y))
  | H : context [String.append EmptyString ?x] |- _ =>
      change (String.append EmptyString x) with x in H
  | H : context [String.append (String ?a ?x) ?y] |- _ =>
      change (String.append (String a x) y) with (String a (String.append x y)) in H
  end.


(** ** The mode-only worker (lines 86-93) *)

Definition control_fan_mode (net : network) (host username password : string)
    (mode : string) : M unit :=
  let node_f := Build_Fans host username password in
  let* random_string := get_random net node_f in
  let* _ := get_session net node_f random_string in
  let* _ := fans_mode net node_f mode in
  print ("Completed fan control for node " ++ host ++ " in " ++ mode ++ " mode").

(** ** Further definitions used in statements and proofs *)

(** [int] after the leading blanks and the sign: the digits, then blanks
    to the end. *)
Definition int_digits (sign : Z) (s2 : string) : option Z :=
  match s2 with
  | String c _ =>
      match Py.digit_value c with
      | Some _ =>
          match Py.scan_digits "000" 0 s2 with
          | Some (v, rest) =>
              match Py.skip_spaces rest with
              | EmptyString => Some (sign * v)
              | _ => None
              end
          | None => None
          end
      | None => None
      end
  | EmptyString => None
  end.

(** The requests a node worker makes for [self] at [rate]: the challenge,
    the session, the manual mode and the fan duties, whatever headers they
    carry. *)
Definition worker_request (self : Fans) (rate : Z) (q : request) : Prop :=
  (exists h, q = random_request self h) \/
  (exists rs h, q = session_request self rs h) \/
  (exists h, q = mode_request self "manual" h) \/
  (exists h i, q = fan_request self rate h i).

(** The line the pool prints for its [k]-th request, which is for fan [i]:
    the task's report, or the line for the exception it raised. *)
Definition fan_line (net : network) (self : Fans) (rate : Z)
    (hdrs : gmap string pyval) (wire0 : list request) (order : list nat)
    (k i : nat) : string :=
  match fan_report i (fan_outcome net self rate hdrs wire0 order k i) with
  | Ok line => line
  | Raise e => fan_error_line e
  end.

(** The line already printed for the [k]-th request in the pool state [pl],
    if any: a report is printed when the task finishes, an exception when
    its future is collected. *)
Definition due_line (net : network) (self : Fans) (rate : Z)
    (hdrs : gmap string pyval) (wire0 : list request) (order : list nat)
    (pl : pool) (k i : nat) : option string :=
  match futures pl !! i with
  | Some (Finished _) =>
      match fan_report i (fan_outcome net self rate hdrs wire0 order k i) with
      | Ok line => Some line
      | Raise e =>
          if bool_decide (i ∈ yielded pl) then Some (fan_error_line e) else None
      end
  | _ => None
  end.

(** The output of the pool so far is made of the lines due, in the order
    in which they fell due. *)
Definition lines_inv (net : network) (self : Fans) (rate : Z) (p0 : process)
    (order : list nat) (st : pool_state) : Prop :=
  exists L,
    stdout (fst st) = (stdout p0 ++ L)%list /\
    L ≡ₚ omap id
           (imap (due_line net self rate (Fans_headers p0) (wire p0) order
                    (snd st)) order).

(** The line for fan [i] when the reply to its request does not depend on
    what was sent before. *)
Definition stateless_fan_line (net : network) (self : Fans) (rate : Z)
    (hdrs : gmap string pyval) (i : nat) : string :=
  match fan_report i (net [] (fan_request self rate hdrs i)) with
  | Ok line => line
  | Raise e => fan_error_line e
  end.

(** A BMC that numbers its sessions: the session id and the CSRF token of
    a reply tell how many requests the process had made before. *)
Definition counting_network : network :=
  fun hist _ =>
    let k := Py.str_int (Z.of_nat (length hist)) in
    Ok (Response (Some ("QSESSIONID=s" ++ k ++ "; Path=/")) ""
          (BodyDict {["CSRFToken" := PStr ("c" ++ k)]})).


(** A BMC whose replies are empty JSON objects. *)
Definition empty_reply_network : network :=
  fun _ _ => Ok (Response None "" (BodyDict ∅)).

(** The three login steps with the mode as a parameter: what
    [control_fan_mode] runs before its closing line ([node_login] is the
    case of the manual mode). *)
Definition node_login_mode (net : network) (self : Fans) (mode : string)
    : M unit :=
  let* random_string := get_random net self in
  let* _ := get_session net self random_string in
  fans_mode net self mode.

(** The requests of the login steps, whatever headers they carry. *)
Definition login_request (self : Fans) (mode : string) (q : request) : Prop :=
  (exists h, q = random_request self h) \/
  (exists rs h, q = session_request self rs h) \/
  (exists h, q = mode_request self mode h).

(** * Properties *)

(** ** The embedding on concrete inputs *)

Example int_plain : Py.int "42" = Some 42.
Proof. reflexivity. Qed.

Example int_blanks_and_sign : Py.int "  +7 " = Some 7.
Proof. reflexivity. Qed.

Example int_underscore : Py.int "1_0" = Some 10.
Proof. reflexivity. Qed.

Example int_rejects :
  map Py.int [""; "-"; "1__0"; "1_"; "_1"; "+ 3"; "3 4"; "0x10"; "five"]
  = [None; None; None; None; None; None; None; None; None].
Proof. reflexivity. Qed.

Example split_dashes : Py.split "-" "1--3" = ["1"; ""; "3"].
Proof. reflexivity. Qed.

Example parse_spaced_range : parse_node_range "1 - 3" = Some [1; 2; 3].
Proof. reflexivity. Qed.

Example parse_rejects :
  map parse_node_range ["-3"; "3-"; "1-2-3"; "4--2"; "a-b"; ""]
  = [None; None; None; None; None; None].
Proof. reflexivity. Qed.

Example str_list_nodes : Py.str_list [1; 2; 3] = "[1, 2, 3]".
Proof. reflexivity. Qed.

Example session_id_first_of_two :
  first_session_id "a=b; QSESSIONID=x1; Path=/, QSESSIONID=x2;" = Some "x1".
Proof. reflexivity. Qed.

Example session_id_needs_semicolon : first_session_id "QSESSIONID=x1" = None.
Proof. reflexivity. Qed.

Example main_without_arguments :
  set_out (main_settings "fan.py" []) =
    [ "Usage: python fan.py <node_spec> [rate]";
      "Examples:";
      "  python fan.py 1-5 30  # Set 30% fan speed on nodes 1-5";
      "  python fan.py 1 20    # Set 20% fan speed on node 1";
      "Using default: all nodes at 20% fan speed";
      "Setting fan rate to 20% for nodes: [1, 2, 3, 4, 5]" ].
Proof. reflexivity. Qed.

Example main_with_warnings :
  set_out (main_settings "fan.py" ["0-2"; "150"]) =
    [ "Warning: Node 0 is out of range (1-5). It will be skipped.";
      "Warning: Fan rate should be between 0-100. Using provided value: 150%";
      "Setting fan rate to 150% for nodes: [1, 2]" ].
Proof. reflexivity. Qed.

(** One node against the echoing BMC, three fans, the tasks scheduled in
    turn: the lines it prints. *)
Example control_fan_echo :
  let r := control_fan echo_network (fun k => k) "10.0.0.1" "admin" "admin"
             30 3 initial_process in
  fst r = Ok tt /\
  stdout (snd r) =
    [ "response: ok";
      "The index 0 fan change to 30 %";
      "The index 1 fan change to 30 %";
      "The index 2 fan change to 30 %";
      "Completed fan control for node 10.0.0.1" ].
Proof. vm_compute. split; reflexivity. Qed.

(** The same with the transport failing for fan 1. *)
Example control_fan_one_fan_down :
  stdout (snd (control_fan (flaky_network "https://10.0.0.1/api/settings/fan/1")
                 (fun _ => O) "10.0.0.1" "admin" "admin" 30 3 initial_process)) =
    [ "response: ok";
      "The index 0 fan change to 30 %";
      "An error occurred while changing fan: connection refused";
      "The index 2 fan change to 30 %";
      "Completed fan control for node 10.0.0.1" ].
Proof. vm_compute. reflexivity. Qed.

(** Another scheduling of the same run sends the requests in another
    order. *)
Example control_fan_other_schedule :
  map req_url
    (wire (snd (change_fans echo_network (fun k => (7 * k + 3)%nat)
                  (Build_Fans "h" "admin" "admin") 30 3 initial_process))) =
    ["https://h/api/settings/fan/1"; "https://h/api/settings/fan/2";
     "https://h/api/settings/fan/0"].
Proof. vm_compute. reflexivity. Qed.
(** ** Decimal numerals: [int] reads back what [str] writes *)

Section Numerals.

Import Py.

Lemma uint_value_acc (d : uint) (acc : positive) :
  uint_value (Z.pos acc) d = Z.pos (Pos.of_uint_acc d acc).
Proof.
  revert acc; induction d; intros acc; simpl; try reflexivity;
    rewrite <- IHd; f_equal; lia.
Qed.

Lemma uint_value_0 (d : uint) : uint_value 0 d = Z.of_uint d.
Proof.
  unfold Z.of_uint.
  induction d; simpl; try reflexivity; try assumption;
    apply (uint_value_acc d).
Qed.

Lemma scan_digits_numeral (d : uint) (prev : ascii) (acc : Z) :
  Ascii.eqb prev "_" = false ->
  scan_digits prev acc (NilEmpty.string_of_uint d) = Some (uint_value acc d, "").
Proof.
  revert prev acc; induction d; intros prev acc Hprev; simpl;
    try (rewrite IHd; reflexivity).
  rewrite Hprev; reflexivity.
Qed.

Lemma int_unsigned (c : ascii) (s : string) (d : Z) :
  digit_value c = Some d ->
  Py.int (String c s) =
    match scan_digits "000" 0 (String c s) with
    | Some (v, rest) =>
        match skip_spaces rest with
        | EmptyString => Some (1 * v)
        | _ => None
        end
    | None => None
    end.
Proof.
  intros Hc.
  destruct c as [[] [] [] [] [] [] [] []]; try discriminate Hc; reflexivity.
Qed.

Lemma numeral_head (d : uint) :
  d <> Nil ->
  exists c s v, NilEmpty.string_of_uint d = String c s /\ digit_value c = Some v.
Proof.
  intros Hd; destruct d; try congruence; simpl; eauto.
Qed.

Lemma int_numeral (d : uint) :
  d <> Nil -> Py.int (NilEmpty.string_of_uint d) = Some (Z.of_uint d).
Proof.
  intros Hd. destruct (numeral_head d Hd) as (c & s & v & Hs & Hc).
  rewrite Hs, (int_unsigned c s v Hc), <- Hs.
  rewrite scan_digits_numeral by reflexivity.
  simpl skip_spaces. cbv iota. rewrite Z.mul_1_l, uint_value_0. reflexivity.
Qed.

Lemma str_int_nonneg (n : N) :
  str_int (Z.of_N n) = NilEmpty.string_of_uint (N.to_uint n).
Proof.
  destruct n as [|p]; [reflexivity|].
  unfold str_int; simpl.
  pose proof (DecimalPos.Unsigned.to_uint_nonnil p) as Hp.
  destruct (Pos.to_uint p); [congruence | reflexivity ..].
Qed.

Lemma to_uint_nonnil (n : N) : N.to_uint n <> Nil.
Proof.
  destruct n; [discriminate | apply DecimalPos.Unsigned.to_uint_nonnil].
Qed.

(** [int(str(n)) == n] for a natural number. *)
Lemma int_str_int (n : N) : Py.int (str_int (Z.of_N n)) = Some (Z.of_N n).
Proof.
  rewrite str_int_nonneg, int_numeral by apply to_uint_nonnil.
  unfold Z.of_uint. f_equal. f_equal. apply DecimalN.Unsigned.of_to.
Qed.

Lemma contains_numeral (d : uint) :
  contains "-" (NilEmpty.string_of_uint d) = false.
Proof. induction d; simpl; auto. Qed.

(** The numeral of a natural number has no minus sign. *)
Lemma contains_str_int (n : N) : contains "-" (str_int (Z.of_N n)) = false.
Proof. rewrite str_int_nonneg. apply contains_numeral. Qed.

End Numerals.

(** ** Splitting at the dash *)

Lemma contains_app (c : ascii) (s t : string) :
  Py.contains c (s ++ t) = Py.contains c s || Py.contains c t.
Proof.
  induction s as [|a s IH]; simpl; [reflexivity|].
  rewrite IH. apply orb_assoc.
Qed.

Lemma split_no_sep (c : ascii) (s : string) :
  Py.contains c s = false -> Py.split c s = [s].
Proof.
  induction s as [|a s IH]; simpl; [reflexivity|].
  intros [Ha Hs]%orb_false_elim. rewrite Ha, (IH Hs). reflexivity.
Qed.

Lemma split_app_sep (c : ascii) (s t : string) :
  Py.contains c s = false ->
  Py.split c (s ++ String c t) = s :: Py.split c t.
Proof.
  induction s as [|a s IH]; simpl.
  - rewrite Ascii.eqb_refl. reflexivity.
  - intros [Ha Hs]%orb_false_elim. rewrite Ha, (IH Hs). reflexivity.
Qed.

(** ** [parse_node_range] on well-formed specifications *)

Lemma parse_node_range_single (s : string) (n : Z) :
  Py.contains "-" s = false -> Py.int s = Some n ->
  parse_node_range s = Some [n].
Proof. unfold parse_node_range. intros -> ->. reflexivity. Qed.

Lemma parse_node_range_pair (sa sb : string) (a b : Z) :
  Py.contains "-" sa = false -> Py.contains "-" sb = false ->
  Py.int sa = Some a -> Py.int sb = Some b ->
  parse_node_range (sa ++ "-" ++ sb) = Some (Py.range a (b + 1)).
Proof.
  intros Ha Hb Ia Ib. unfold parse_node_range.
  rewrite contains_app. simpl Py.contains at 2.
  rewrite orb_true_r.
  change ("-" ++ sb) with (String "-" sb).
  rewrite (split_app_sep _ _ _ Ha), (split_no_sep _ _ Hb).
  unfold unpack_two_ints. rewrite Ia, Ib. reflexivity.
Qed.

(** [range(a, b + 1)] lists [a], [a + 1], ... up to [b]. *)
Lemma range_inclusive (a b : Z) (i : nat) (x : Z) :
  Py.range a (b + 1) !! i = Some x <-> x = a + Z.of_nat i /\ x <= b.
Proof. unfold Py.range. rewrite lookup_seqZ. lia. Qed.

(** C5.  [parse_node_range] maps the numeral of a number [n] to the list
    [[n]], and the numerals of [a] and [b] joined by a dash to the
    ascending list of the integers from [a] to [b] inclusive; on ["3"] it
    yields [[3]] and on ["2-4"] it yields [[2; 3; 4]]. *)
Theorem parse_node_range_spec :
  (forall n : N,
     parse_node_range (Py.str_int (Z.of_N n)) = Some [Z.of_N n]) /\
  (forall a b : N,
     exists l,
       parse_node_range (Py.str_int (Z.of_N a) ++ "-" ++ Py.str_int (Z.of_N b))
         = Some l /\
       l = seqZ (Z.of_N a) (Z.of_N b - Z.of_N a + 1) /\
       forall (i : nat) (x : Z),
         l !! i = Some x <-> x = Z.of_N a + Z.of_nat i /\ x <= Z.of_N b) /\
  parse_node_range "3" = Some [3] /\
  parse_node_range "2-4" = Some [2; 3; 4].
Proof.
  split; [|split; [|split; reflexivity]].
  - intros n. apply parse_node_range_single;
      [apply contains_str_int | apply int_str_int].
  - intros a b. eexists. split; [|split].
    + apply parse_node_range_pair;
        auto using contains_str_int, int_str_int.
    + unfold Py.range. f_equal. lia.
    + apply range_inclusive.
Qed.

(** ** The orchestrator's reading of its arguments *)

Lemma main_settings_cons (prog spec : string) (rest : list string) :
  main_settings prog (spec :: rest) =
    let sel := select_nodes (Py.range 1 6) spec in
    let rt := select_rate 20 rest in
    Settings (fst rt) (fst sel)
      ((snd sel ++ snd rt) ++ [settings_line (fst rt) (fst sel)])%list.
Proof.
  unfold main_settings.
  destruct (select_nodes (Py.range 1 6) spec) as [nodes out1].
  destruct (select_rate 20 rest) as [rate out2]. reflexivity.
Qed.

Lemma node_hosts_lookup (n : Z) :
  1 <= n <= 5 -> node_hosts !! n = Some "IP_ADDRESS".
Proof.
  intros Hn.
  assert (n = 1 \/ n = 2 \/ n = 3 \/ n = 4 \/ n = 5) as H by lia.
  destruct H as [->|[->|[->|[->| ->]]]]; reflexivity.
Qed.

(** Every node id between 1 and 5 resolves to a host, in order. *)
Lemma resolve_hosts_in_range (rate fans : Z) (nodes : list Z) :
  Forall (fun n => 1 <= n <= 5) nodes ->
  resolve_hosts rate fans nodes =
    (map (fun _ => configured_args rate fans) nodes, []).
Proof.
  induction 1 as [|n nodes Hn _ IH]; simpl; [reflexivity|].
  rewrite IH, (node_hosts_lookup n Hn). reflexivity.
Qed.

Lemma node_warnings_filter (nodes : list Z) :
  node_warnings nodes =
    map node_warning (filter (fun n => ~ (1 <= n <= 5)) nodes).
Proof.
  induction nodes as [|n nodes IH]; simpl; [reflexivity|].
  rewrite filter_cons, IH.
  destruct (decide (~ (1 <= n <= 5))) as [Hn|Hn].
  - replace ((n <? 1) || (5 <? n))%Z with true by lia. reflexivity.
  - replace ((n <? 1) || (5 <? n))%Z with false by lia. reflexivity.
Qed.

Lemma main_workers_of_settings (worlds : nat -> world) (prog : string)
    (args : list string) :
  let s := main_settings prog args in
  Forall (fun n => 1 <= n <= 5) (set_nodes s) ->
  main worlds prog args =
    MainResult
      (set_out s ++ ["All fan control operations completed!"])%list
      (imap (fun k a => run_worker (worlds k) a)
         (map (fun _ => configured_args (set_rate s) 12) (set_nodes s))).
Proof.
  intros s Hs. unfold main. fold s.
  rewrite (resolve_hosts_in_range _ _ _ Hs). reflexivity.
Qed.

Lemma filter_in_range_Forall (nodes : list Z) :
  Forall (fun n => 1 <= n <= 5) (filter (fun n => 1 <= n <= 5) nodes).
Proof. apply Forall_forall. intros n [? _]%list_elem_of_filter. assumption. Qed.

Lemma all_nodes_in_range : Forall (fun n => 1 <= n <= 5) (Py.range 1 6).
Proof. apply Forall_seqZ. lia. Qed.

(** C6.  When the node specification parses to [nodes], the ids outside
    1..5 are each warned about and are removed before the nodes are
    resolved to hosts: the control set is [nodes] filtered, in the order of
    [nodes], and one worker is started for each id that is kept. *)
Theorem out_of_range_nodes_dropped (worlds : nat -> world)
    (prog spec : string) (rest : list string) (nodes : list Z) :
  parse_node_range spec = Some nodes ->
  let s := main_settings prog (spec :: rest) in
  let kept := set_nodes s in
  (forall n, n ∈ kept <-> n ∈ nodes /\ 1 <= n <= 5) /\
  kept `sublist_of` nodes /\
  kept = filter (fun n => 1 <= n <= 5) nodes /\
  (forall n, n ∈ nodes -> ~ (1 <= n <= 5) -> node_warning n ∈ set_out s) /\
  (exists out,
     set_out s =
       (map node_warning (filter (fun n => ~ (1 <= n <= 5)) nodes) ++ out)%list) /\
  resolve_hosts (set_rate s) 12 kept =
    (map (fun _ => configured_args (set_rate s) 12) kept, []) /\
  main_workers (main worlds prog (spec :: rest)) =
    imap (fun k a => run_worker (worlds k) a)
      (map (fun _ => configured_args (set_rate s) 12) kept).
Proof.
  intros Hparse s kept.
  assert (kept = filter (fun n => 1 <= n <= 5) nodes) as Hkept.
  { unfold kept, s. rewrite main_settings_cons. unfold select_nodes.
    rewrite Hparse. reflexivity. }
  assert (set_out s =
    (node_warnings nodes ++ snd (select_rate 20 rest)
       ++ [settings_line (set_rate s) kept])%list) as Hout.
  { unfold kept, s. rewrite main_settings_cons. unfold select_nodes.
    rewrite Hparse. simpl. rewrite <- app_assoc. reflexivity. }
  assert (Forall (fun n => 1 <= n <= 5) kept) as Hall.
  { rewrite Hkept. apply filter_in_range_Forall. }
  split_and!.
  - intros n. rewrite Hkept, list_elem_of_filter. tauto.
  - rewrite Hkept. apply sublist_filter.
  - assumption.
  - intros n Hn Hout_of_range. rewrite Hout, node_warnings_filter.
    apply elem_of_app. left. apply list_elem_of_fmap_2.
    apply list_elem_of_filter. tauto.
  - eexists. rewrite Hout, node_warnings_filter. reflexivity.
  - apply resolve_hosts_in_range, Hall.
  - rewrite (main_workers_of_settings worlds prog (spec :: rest) Hall).
    reflexivity.
Qed.

Lemma out_of_range_nodes_dropped_witness :
  set_nodes (main_settings "fan.py" ["0-7"]) = [1; 2; 3; 4; 5] /\
  node_warning 7 ∈ set_out (main_settings "fan.py" ["0-7"]).
Proof.
  pose proof (out_of_range_nodes_dropped (fun _ => World (fun _ _ => Raise IndexError) (fun _ => O))
                "fan.py" "0-7" [] (seqZ 0 8) eq_refl) as H.
  cbv zeta in H.
  destruct H as (_ & _ & Hkept & Hwarn & _).
  split.
  - rewrite Hkept. reflexivity.
  - apply Hwarn; [|lia]. apply elem_of_seqZ. lia.
Defined.

(** C7.  When parsing the node specification raises [ValueError], the
    orchestrator prints the invalid-specification line, keeps the default
    control set 1..5, starts a worker for each of the five nodes and runs
    to its closing message. *)
Theorem invalid_spec_falls_back_to_all_nodes (worlds : nat -> world)
    (prog spec : string) (rest : list string) :
  parse_node_range spec = None ->
  let s := main_settings prog (spec :: rest) in
  let r := main worlds prog (spec :: rest) in
  set_nodes s = [1; 2; 3; 4; 5] /\
  (exists out, set_out s = invalid_spec_line spec :: out) /\
  invalid_spec_line spec ∈ main_stdout r /\
  main_workers r =
    imap (fun k a => run_worker (worlds k) a)
      (replicate 5 (configured_args (set_rate s) 12)) /\
  last (main_stdout r) = Some "All fan control operations completed!".
Proof.
  intros Hparse s r.
  assert (set_nodes s = Py.range 1 6) as Hnodes.
  { unfold s. rewrite main_settings_cons. unfold select_nodes.
    rewrite Hparse. reflexivity. }
  assert (exists out, set_out s = invalid_spec_line spec :: out) as [out Hout].
  { unfold s. rewrite main_settings_cons. unfold select_nodes.
    rewrite Hparse. simpl. eauto. }
  assert (r = MainResult
            (set_out s ++ ["All fan control operations completed!"])%list
            (imap (fun k a => run_worker (worlds k) a)
               (map (fun _ => configured_args (set_rate s) 12) (set_nodes s))))
    as Hr.
  { apply main_workers_of_settings. fold s. rewrite Hnodes.
    apply all_nodes_in_range. }
  split_and!.
  - rewrite Hnodes. reflexivity.
  - eauto.
  - rewrite Hr, Hout. simpl. apply list_elem_of_here.
  - rewrite Hr, Hnodes. reflexivity.
  - rewrite Hr. simpl. apply last_snoc.
Qed.

Lemma invalid_spec_falls_back_to_all_nodes_witness :
  set_nodes (main_settings "fan.py" ["one"; "30"]) = [1; 2; 3; 4; 5].
Proof.
  exact (proj1 (invalid_spec_falls_back_to_all_nodes
                  (fun _ => World (fun _ _ => Raise IndexError) (fun _ => O))
                  "fan.py" "one" ["30"] eq_refl)).
Defined.

(** C8.  A second argument that [int] rejects leaves the rate at its
    default 20 and prints the invalid-rate line; one that is an integer
    outside 0..100 prints the warning and is the rate every worker is
    started with. *)
Theorem rate_argument_is_permissive (worlds : nat -> world)
    (prog spec arg : string) (rest : list string) :
  let s := main_settings prog (spec :: arg :: rest) in
  (Py.int arg = None ->
     set_rate s = 20 /\ invalid_rate_line arg 20 ∈ set_out s) /\
  (forall v : Z,
     Py.int arg = Some v -> v < 0 \/ 100 < v ->
     set_rate s = v /\ rate_warning v ∈ set_out s /\
     Forall (fun a => wa_rate a = v)
       (fst (resolve_hosts (set_rate s) 12 (set_nodes s)))).
Proof.
  intros s. unfold s. rewrite main_settings_cons. cbv zeta. simpl select_rate.
  split.
  - intros ->. simpl. split; [reflexivity|].
    rewrite !elem_of_app. left. right. apply list_elem_of_here.
  - intros v -> Hv.
    replace ((v <? 0) || (100 <? v))%Z with true by lia. simpl.
    split_and!; [reflexivity | |].
    + rewrite !elem_of_app. left. right. apply list_elem_of_here.
    + generalize (fst (select_nodes (Py.range 1 6) spec)).
      intros nodes. induction nodes as [|n nodes IH]; simpl; [constructor|].
      destruct (resolve_hosts v 12 nodes) as [hosts out].
      destruct (node_hosts !! n) as [[|c h]|]; simpl in *; auto.
Qed.

Lemma rate_argument_is_permissive_witness :
  set_rate (main_settings "fan.py" ["1-5"; "fast"]) = 20 /\
  set_rate (main_settings "fan.py" ["1-5"; "150"]) = 150.
Proof.
  split.
  - exact (proj1 (proj1 (rate_argument_is_permissive
                    (fun _ => World (fun _ _ => Raise IndexError) (fun _ => O))
                    "fan.py" "1-5" "fast" []) eq_refl)).
  - refine (proj1 (proj2 (rate_argument_is_permissive
                    (fun _ => World (fun _ _ => Raise IndexError) (fun _ => O))
                    "fan.py" "1-5" "150" []) 150 eq_refl _)).
    right. lia.
Defined.

(** A reversed range parses to the empty list. *)
Lemma reversed_range_empty (sa sb : string) (a b : Z) :
  Py.contains "-" sa = false -> Py.contains "-" sb = false ->
  Py.int sa = Some a -> Py.int sb = Some b -> b < a ->
  parse_node_range (sa ++ "-" ++ sb) = Some [].
Proof.
  intros Ha Hb Ia Ib Hlt.
  rewrite (parse_node_range_pair sa sb a b Ha Hb Ia Ib).
  unfold Py.range. rewrite seqZ_nil by lia. reflexivity.
Qed.

(** C9.  For integers [0 <= b < a] the specification made of the numeral
    of [a], a dash and the numeral of [b] parses to the empty list without
    raising; the orchestrator prints no invalid-specification line, keeps
    no node, and starts no worker.  More generally every specification
    [sa-sb] whose two parts [int] accepts, the second being the smaller,
    parses to the empty list. *)
Theorem reversed_range_controls_nothing :
  (forall (worlds : nat -> world) (prog : string) (rest : list string)
      (a b : Z),
     0 <= b -> b < a ->
     let spec := Py.str_int a ++ "-" ++ Py.str_int b in
     let s := main_settings prog (spec :: rest) in
     let r := main worlds prog (spec :: rest) in
     parse_node_range spec = Some [] /\
     set_nodes s = [] /\
     set_out s =
       (snd (select_rate 20 rest) ++ [settings_line (set_rate s) []])%list /\
     main_workers r = [] /\
     main_stdout r =
       (set_out s ++ ["All fan control operations completed!"])%list) /\
  (forall (sa sb : string) (a b : Z),
     Py.contains "-" sa = false -> Py.contains "-" sb = false ->
     Py.int sa = Some a -> Py.int sb = Some b -> b < a ->
     parse_node_range (sa ++ "-" ++ sb) = Some []).
Proof.
  split; [|exact reversed_range_empty].
  intros worlds prog rest a b Hb Hlt spec s r.
  assert (parse_node_range spec = Some []) as Hparse.
  { unfold spec. rewrite <- (Z2N.id a), <- (Z2N.id b) by lia.
    apply (reversed_range_empty _ _ (Z.of_N (Z.to_N a)) (Z.of_N (Z.to_N b)));
      auto using contains_str_int, int_str_int. lia. }
  assert (set_nodes s = []) as Hnodes.
  { unfold s. rewrite main_settings_cons. unfold select_nodes.
    rewrite Hparse. reflexivity. }
  assert (r = MainResult
            (set_out s ++ ["All fan control operations completed!"])%list
            (imap (fun k a => run_worker (worlds k) a)
               (map (fun _ => configured_args (set_rate s) 12) (set_nodes s))))
    as Hr.
  { apply main_workers_of_settings. fold s. rewrite Hnodes. constructor. }
  split_and!.
  - assumption.
  - assumption.
  - unfold s. rewrite main_settings_cons. unfold select_nodes.
    rewrite Hparse. reflexivity.
  - rewrite Hr, Hnodes. reflexivity.
  - rewrite Hr. reflexivity.
Qed.

Lemma reversed_range_controls_nothing_witness :
  parse_node_range "4-2" = Some [] /\
  main_workers (main (fun _ => World (fun _ _ => Raise IndexError) (fun _ => O))
                  "fan.py" ["4-2"; "30"]) = [].
Proof.
  pose proof (proj1 reversed_range_controls_nothing
                (fun _ => World (fun _ _ => Raise IndexError) (fun _ => O))
                "fan.py" ["30"] 4 2 ltac:(lia) ltac:(lia)) as H.
  cbv zeta in H. destruct H as (Hp & _ & _ & Hw & _).
  split; [exact Hp | exact Hw].
Defined.

(** C9 as it is stated, for every pair of integers [a > b], fails when [b]
    is negative.  For [a = 2] and [b = -1] the specification is ["2--1"]:
    it splits into three parts at its dashes, [parse_node_range] raises
    [ValueError] instead of returning the empty list, and the orchestrator
    prints the invalid-specification line and starts a worker for each of
    the five nodes. *)
Lemma reversed_range_negative_bound :
  -1 < 2 /\
  Py.str_int 2 ++ "-" ++ Py.str_int (-1) = "2--1" /\
  Py.split "-" "2--1" = ["2"; ""; "1"] /\
  parse_node_range "2--1" = None /\
  parse_node_range "2--1" <> Some [] /\
  set_nodes (main_settings "fan.py" ["2--1"]) = [1; 2; 3; 4; 5] /\
  invalid_spec_line "2--1" ∈ set_out (main_settings "fan.py" ["2--1"]) /\
  length (main_workers
            (main (fun _ => World (fun _ _ => Raise IndexError) (fun _ => O))
               "fan.py" ["2--1"])) = 5%nat.
Proof.
  split; [lia|]. split; [reflexivity|]. split; [reflexivity|].
  split; [reflexivity|]. split; [discriminate|]. split; [reflexivity|].
  split; [apply list_elem_of_here | reflexivity].
Qed.

(** ** The session-cookie pattern *)

Lemma strip_prefix_spec (p s r : string) :
  strip_prefix p s = Some r <-> s = p ++ r.
Proof.
  revert s; induction p as [|a p IH]; intros s; simpl; app_simpl.
  - split; congruence.
  - destruct s as [|b s]; [split; discriminate|].
    destruct (Ascii.eqb_spec a b) as [->|Hab].
    + rewrite IH. split; congruence.
    + split; [discriminate | congruence].
Qed.

(** [(.*?);] yields [tok] exactly when [tok] is free of semicolons and
    newlines and a semicolon follows it. *)
Lemma lazy_until_semicolon_spec (s tok : string) :
  lazy_until_semicolon s = Some tok <->
  (exists post, s = tok ++ ";" ++ post) /\
  Py.contains ";" tok = false /\ Py.contains "010" tok = false.
Proof.
  revert tok; induction s as [|c s IH]; intros tok; simpl; app_simpl.
  - split; [discriminate|]. intros [[post H] _].
    destruct tok; app_simpl; discriminate.
  - destruct (Ascii.eqb_spec c ";") as [->|Hsemi].
    + split.
      * intros [= <-]. split; [exists s; reflexivity | split; reflexivity].
      * intros [[post H] [Hs _]]. destruct tok as [|t tok]; [reflexivity|].
        simpl in H, Hs; app_simpl. injection H as <- _. discriminate.
    + destruct (Ascii.eqb_spec c "010") as [->|Hnl].
      * split; [discriminate|]. intros [[post H] [_ Hn]].
        destruct tok as [|t tok]; simpl in H, Hn; app_simpl.
        -- injection H as H _. congruence.
        -- injection H as <- _. discriminate.
      * destruct (lazy_until_semicolon s) as [tok'|] eqn:Hrec; simpl.
        -- split.
           ++ intros [= <-]. destruct (proj1 (IH tok') eq_refl) as ([post ->] & H1 & H2).
              simpl; app_simpl. split; [exists post; reflexivity|].
              destruct (Ascii.eqb_spec c ";"); [congruence|].
              destruct (Ascii.eqb_spec c "010"); [congruence|]. auto.
           ++ intros [[post H] [Hs Hn]].
              destruct tok as [|t tok]; simpl in H, Hs, Hn; app_simpl.
              ** injection H as H _. congruence.
              ** injection H as <- ->.
                 apply orb_false_elim in Hs as [_ Hs].
                 apply orb_false_elim in Hn as [_ Hn].
                 f_equal. f_equal.
                 assert (Some tok' = Some tok) as [= ->]; [|reflexivity].
                 apply IH. eauto.
        -- split; [discriminate|]. intros [[post H] [Hs Hn]].
           destruct tok as [|t tok]; simpl in H, Hs, Hn; app_simpl.
           ++ injection H as H _. congruence.
           ++ injection H as <- ->.
              apply orb_false_elim in Hs as [_ Hs].
              apply orb_false_elim in Hn as [_ Hn].
              assert (None = Some tok) as [=]. apply IH. eauto.
Qed.

(** The pattern matches at the head of [s] with group [tok]. *)
Lemma match_session_at_spec (s tok : string) :
  match_session_at s = Some tok <->
  (exists post, s = "QSESSIONID=" ++ tok ++ ";" ++ post) /\
  Py.contains ";" tok = false /\ Py.contains "010" tok = false.
Proof.
  unfold match_session_at.
  destruct (strip_prefix "QSESSIONID=" s) as [rest|] eqn:Hp.
  - apply strip_prefix_spec in Hp. subst s.
    rewrite lazy_until_semicolon_spec. split.
    + intros ([post ->] & ? & ?). eauto.
    + intros ([post H] & ? & ?). apply strip_prefix_spec in H.
      rewrite (proj2 (strip_prefix_spec "QSESSIONID=" _ rest) eq_refl) in H.
      injection H as ->. eauto.
  - split; [discriminate|]. intros ([post H] & _).
    apply strip_prefix_spec in H. congruence.
Qed.

(** [first_session_id] is the group of the leftmost match: the pattern
    matches after some prefix [pre], and after no shorter one. *)
Lemma first_session_id_spec (s tok : string) :
  first_session_id s = Some tok <->
  exists pre rest,
    s = pre ++ rest /\ match_session_at rest = Some tok /\
    forall pre' rest',
      s = pre' ++ rest' -> (String.length pre' < String.length pre)%nat ->
      match_session_at rest' = None.
Proof.
  induction s as [|c s IH].
  - simpl. split; [discriminate|].
    intros (pre & rest & H & Hm & _).
    destruct pre; [|discriminate]. simpl in H; app_simpl. subst rest. discriminate.
  - cbn [first_session_id].
    destruct (match_session_at (String c s)) as [tok0|] eqn:Hm0.
    + split.
      * intros [= <-]. exists "", (String c s). split_and!; auto.
        simpl. intros; lia.
      * intros (pre & rest & H & Hm & Hleft).
        destruct pre as [|a pre].
        -- simpl in H; app_simpl. subst rest. congruence.
        -- specialize (Hleft "" (String c s) eq_refl). simpl in Hleft.
           rewrite Hleft in Hm0 by lia. discriminate.
    + rewrite IH. split.
      * intros (pre & rest & -> & Hm & Hleft).
        exists (String c pre), rest. split_and!; auto.
        intros pre' rest' H Hlen. destruct pre' as [|a pre'].
        -- simpl in H; app_simpl. subst rest'. assumption.
        -- simpl in H; app_simpl. injection H as <- H. apply (Hleft pre' rest' H).
           simpl in Hlen. lia.
      * intros (pre & rest & H & Hm & Hleft).
        destruct pre as [|a pre].
        -- simpl in H; app_simpl. subst rest. congruence.
        -- simpl in H; app_simpl. injection H as <- ->.
           exists pre, rest. split_and!; auto.
           intros pre' rest' H Hlen.
           apply (Hleft (String c pre') rest'); simpl; app_simpl; [congruence | lia].
Qed.

Lemma first_session_id_suffix (pre s : string) :
  is_Some (first_session_id s) -> is_Some (first_session_id (pre ++ s)).
Proof.
  intros Hs. induction pre as [|c pre IH]; app_simpl; [assumption|].
  cbn [first_session_id].
  destruct (match_session_at (String c (pre ++ s))); [eauto | assumption].
Qed.

Lemma first_session_id_here (s t : string) :
  match_session_at s = Some t -> first_session_id s = Some t.
Proof. intros H. destruct s; cbn [first_session_id]; rewrite H; reflexivity. Qed.

(** The matcher at the head of a suffix is the pattern matching at that
    offset. *)
Lemma session_match_at (cookie pre tok : string) :
  session_match cookie pre tok <->
  exists rest, cookie = pre ++ rest /\ match_session_at rest = Some tok.
Proof.
  unfold session_match. split.
  - intros ([post ->] & Hs & Hn).
    exists ("QSESSIONID=" ++ tok ++ ";" ++ post). split; [reflexivity|].
    apply match_session_at_spec. eauto.
  - intros (rest & -> & Hm).
    apply match_session_at_spec in Hm as ([post ->] & Hs & Hn). eauto.
Qed.

(** [first_session_id] computes the group of the first match of the
    pattern. *)
Lemma first_session_match_iff (cookie tok : string) :
  first_session_match cookie tok <-> first_session_id cookie = Some tok.
Proof.
  rewrite first_session_id_spec. unfold first_session_match. split.
  - intros (pre & Hm & Hmin).
    apply session_match_at in Hm as (rest & -> & Hm).
    exists pre, rest. split; [reflexivity|]. split; [assumption|].
    intros pre' rest' Heq Hlen.
    destruct (match_session_at rest') as [tok'|] eqn:Hm'; [|reflexivity].
    assert (session_match (pre ++ rest) pre' tok') as Hsm
      by (apply session_match_at; eauto).
    specialize (Hmin pre' tok' Hsm). lia.
  - intros (pre & rest & -> & Hm & Hleft). exists pre. split.
    + apply session_match_at. eauto.
    + intros pre' tok' (rest' & Heq & Hm')%session_match_at.
      destruct (decide (String.length pre' < String.length pre)%nat)
        as [Hlt|]; [|lia].
      rewrite (Hleft pre' rest' Heq Hlt) in Hm'. discriminate.
Qed.


(** ** Authentication: [get_session] *)

Section Session.

Variable net : network.

(** [get_session] unfolded: the content type is switched and the request
    sent in any case; the header map is completed only when the three
    readings of the reply succeed. *)
Lemma get_session_eq (self : Fans) (rs : pyval) (p : process) :
  get_session net self rs p =
    let req := session_request self rs (Fans_headers p) in
    let p1 := Process (<["content-type" := form_content_type]> (Fans_headers p))
                (wire p ++ [req]) (stdout p) in
    match net (wire p) req with
    | Raise e => (Raise e, p1)
    | Ok resp =>
        match set_cookie_header resp with
        | Raise e => (Raise e, p1)
        | Ok cookie =>
            match findall_first cookie with
            | Raise e => (Raise e, p1)
            | Ok tok =>
                match json_item resp "CSRFToken" with
                | Raise e => (Raise e, p1)
                | Ok csrf =>
                    (Ok tt,
                     Process (session_headers tok csrf (Fans_headers p))
                       (wire p ++ [req]) (stdout p))
                end
            end
        end
    end.
Proof.
  unfold get_session, bind, set_header, requests_call, lift, self_headers,
    session_request, session_headers, form_content_type.
  cbn [fst snd Fans_headers wire stdout].
  destruct (net _ _) as [resp|e]; [|reflexivity].
  destruct (set_cookie_header resp) as [cookie|e]; [|reflexivity].
  destruct (findall_first cookie) as [tok|e]; [|reflexivity].
  destruct (json_item resp "CSRFToken") as [csrf|e]; reflexivity.
Qed.

(** [get_session] always sends exactly its one request, whatever comes
    back, and prints nothing. *)
Lemma get_session_wire (self : Fans) (rs : pyval) (p : process) :
  wire (snd (get_session net self rs p)) =
    (wire p ++ [session_request self rs (Fans_headers p)])%list /\
  stdout (snd (get_session net self rs p)) = stdout p.
Proof.
  rewrite get_session_eq. cbv zeta.
  destruct (net _ _) as [resp|e]; [|split; reflexivity].
  destruct (set_cookie_header resp) as [cookie|e]; [|split; reflexivity].
  destruct (findall_first cookie) as [tok|e]; [|split; reflexivity].
  destruct (json_item resp "CSRFToken") as [csrf|e]; split; reflexivity.
Qed.



Lemma session_headers_lookup (tok : string) (csrf : pyval)
    (hdrs : gmap string pyval) :
  session_headers tok csrf hdrs !! "Cookie" =
    Some (PStr ("lang=zh-cn;QSESSIONID=" ++ tok ++ "; refresh_disable=1")) /\
  session_headers tok csrf hdrs !! "X-Csrftoken" = Some csrf /\
  session_headers tok csrf hdrs !! "content-type" =
    Some (PStr "application/json") /\
  forall key,
    key <> "Cookie" -> key <> "X-Csrftoken" -> key <> "content-type" ->
    session_headers tok csrf hdrs !! key = hdrs !! key.
Proof.
  unfold session_headers. split_and!.
  - rewrite lookup_insert_ne by discriminate. apply lookup_insert_eq.
  - rewrite !lookup_insert_ne by discriminate. apply lookup_insert_eq.
  - apply lookup_insert_eq.
  - intros key H1 H2 H3. rewrite !lookup_insert_ne by congruence. reflexivity.
Qed.


End Session.

(** ** The thread pool of [change_fans] *)

Section Pool.

Local Open Scope list_scope.

Variable net : network.
Variable self : Fans.
Variable rate : Z.
Variable n : nat.

(** The enabled steps, one kind at a time. *)
Lemma elem_of_enabled (st : pool_state) (a : action) :
  a ∈ enabled n st <->
  match a with
  | Submit => (length (futures (snd st)) < n)%nat
  | Send i => futures (snd st) !! i = Some Queued
  | Finish i => exists r, futures (snd st) !! i = Some (Running r)
  | Collect i =>
      (exists res, futures (snd st) !! i = Some (Finished res)) /\
      length (futures (snd st)) = n /\ i ∉ yielded (snd st)
  end.
Proof.
  unfold enabled. rewrite elem_of_app, list_elem_of_join. split.
  - intros [H|(l & Hal & Hl)].
    + case_bool_decide; [|by apply elem_of_nil in H].
      apply list_elem_of_singleton in H. subst a. assumption.
    + apply elem_of_lookup_imap in Hl as (i & f & -> & Hf).
      destruct f; simpl in Hal.
      * apply list_elem_of_singleton in Hal. subst a. assumption.
      * apply list_elem_of_singleton in Hal. subst a. eauto.
      * case_bool_decide as Hdec; [|by apply elem_of_nil in Hal].
        apply list_elem_of_singleton in Hal. subst a.
        destruct Hdec. eauto.
  - destruct a as [|i|i|i].
    + intros H. left. rewrite bool_decide_eq_true_2 by assumption.
      apply list_elem_of_here.
    + intros H. right. exists [Send i]. split; [apply list_elem_of_here|].
      apply elem_of_lookup_imap. exists i, Queued. auto.
    + intros [r H]. right. exists [Finish i]. split; [apply list_elem_of_here|].
      apply elem_of_lookup_imap. exists i, (Running r). auto.
    + intros ([res H] & Hlen & Hy). right. exists [Collect i].
      split; [apply list_elem_of_here|].
      apply elem_of_lookup_imap. exists i, (Finished res). split; [|assumption].
      simpl. rewrite bool_decide_eq_true_2; auto.
Qed.

Variable p0 : process.

Notation "'req'" := (fan_request self rate (Fans_headers p0)).
Notation "'outcome'" :=
  (fan_outcome net self rate (Fans_headers p0) (wire p0)).
Notation "'Inv'" := (pool_inv net self rate n p0).

Lemma fan_outcome_app (order extra : list nat) (k i : nat) :
  (k <= length order)%nat ->
  outcome (order ++ extra) k i = outcome order k i.
Proof.
  intros Hk. unfold fan_outcome, fan_history.
  rewrite take_app_le by assumption. reflexivity.
Qed.

Lemma fan_outcome_last (order : list nat) (i : nat) :
  outcome (order ++ [i]) (length order) i =
    net (wire p0 ++ map req order)%list (req i).
Proof.
  unfold fan_outcome, fan_history.
  rewrite take_app_le, take_ge by lia. reflexivity.
Qed.

Lemma inv_init : Inv [] (p0, Pool [] []).
Proof.
  constructor; simpl.
  - reflexivity.
  - rewrite app_nil_r. reflexivity.
  - constructor.
  - intros i. split.
    + intros H. by apply elem_of_nil in H.
    + intros (f & H & _). discriminate.
  - lia.
  - constructor.
  - intros i H. by apply elem_of_nil in H.
  - intros i r H. discriminate.
  - intros i res H. discriminate.
  - reflexivity.
Qed.

Lemma inv_submit (order : list nat) (st : pool_state) :
  Inv order st -> (length (futures (snd st)) < n)%nat ->
  Inv order (do_action net self rate Submit st).
Proof.
  intros [Hh Hw Hnd Hord Hb Hynd Hy Hr Hf Hout] Hlt.
  destruct st as [p [fs ys]]; simpl in *.
  assert (forall i f, f <> Queued ->
            ((fs ++ [Queued]) !! i = Some f <-> fs !! i = Some f)) as Hsnoc.
  { intros i f Hne. split; intros H.
    - apply lookup_app_Some in H as [H|[_ H]]; [assumption|].
      apply list_lookup_singleton_Some in H as [_ <-]. congruence.
    - apply lookup_app_l_Some. assumption. }
  constructor; simpl; auto.
  - intros i. rewrite Hord. split; intros (f & H & Hne); exists f;
      (split; [apply (Hsnoc i f Hne); assumption | assumption]).
  - rewrite length_app. simpl. lia.
  - intros i Hi. destruct (Hy i Hi) as [Hlen _]. lia.
  - intros i r H. apply Hsnoc in H; [|discriminate]. auto.
  - intros i res H. apply Hsnoc in H; [|discriminate]. auto.
Qed.

Lemma inv_send (order : list nat) (st : pool_state) (i : nat) :
  Inv order st -> futures (snd st) !! i = Some Queued ->
  Inv (order ++ [i]) (do_action net self rate (Send i) st).
Proof.
  intros [Hh Hw Hnd Hord Hb Hynd Hy Hr Hf Hout] Hq.
  destruct st as [p [fs ys]]; simpl in *. rewrite Hq.
  unfold self_headers. rewrite Hh.
  assert (i ∉ order) as Hfresh.
  { intros (f & H & Hne)%Hord. congruence. }
  assert (i < length fs)%nat as Hlt by (eapply lookup_lt_Some; eassumption).
  assert (forall j k, order !! k = Some j ->
            (order ++ [i]) !! k = Some j /\ (k <= length order)%nat) as Hkeep.
  { intros j k H. split; [apply lookup_app_l_Some; assumption|].
    apply lookup_lt_Some in H. lia. }
  constructor; simpl; auto.
  - rewrite Hw, map_app, app_assoc. reflexivity.
  - apply NoDup_app. split_and!; [assumption | | apply NoDup_singleton].
    intros j Hj ->%list_elem_of_singleton. contradiction.
  - intros j. rewrite elem_of_app, list_elem_of_singleton, Hord.
    destruct (decide (j = i)) as [->|Hne].
    + rewrite list_lookup_insert_eq by assumption.
      split; [intros _; eexists; split; [reflexivity|discriminate] | auto].
    + rewrite list_lookup_insert_ne by congruence. tauto.
  - rewrite length_insert. assumption.
  - intros j Hj. rewrite length_insert.
    destruct (Hy j Hj) as [Hlen [res Hres]]. split; [assumption|].
    exists res. rewrite list_lookup_insert_ne; [assumption | congruence].
  - intros j r. destruct (decide (j = i)) as [->|Hne].
    + rewrite list_lookup_insert_eq by assumption. intros [= <-].
      exists (length order). split.
      * rewrite lookup_app_r, Nat.sub_diag by lia. reflexivity.
      * rewrite fan_outcome_last, Hw. reflexivity.
    + rewrite list_lookup_insert_ne by congruence. intros H.
      destruct (Hr j r H) as (k & Hk & ->).
      destruct (Hkeep j k Hk) as [Hk' Hle].
      exists k. split; [assumption|]. symmetry. apply fan_outcome_app, Hle.
  - intros j res. destruct (decide (j = i)) as [->|Hne].
    + rewrite list_lookup_insert_eq by assumption. discriminate.
    + rewrite list_lookup_insert_ne by congruence. intros H.
      destruct (Hf j res H) as (k & Hk & Hrep).
      destruct (Hkeep j k Hk) as [Hk' Hle].
      exists k. split; [assumption|]. rewrite fan_outcome_app by assumption.
      exact Hrep.
Qed.

Lemma inv_finish (order : list nat) (st : pool_state) (i : nat)
    (r : result response) :
  Inv order st -> futures (snd st) !! i = Some (Running r) ->
  Inv order (do_action net self rate (Finish i) st).
Proof.
  intros [Hh Hw Hnd Hord Hb Hynd Hy Hr Hf Hout] Hrun.
  destruct st as [p [fs ys]]; simpl in *. rewrite Hrun.
  assert (i < length fs)%nat as Hlt by (eapply lookup_lt_Some; eassumption).
  assert (i ∉ ys) as Hny.
  { intros Hi. destruct (Hy i Hi) as [_ [res Hres]]. congruence. }
  assert (forall res0,
    res0 = match fan_report i r with
           | Ok _ => Ok (Z.of_nat i)
           | Raise e => Raise e
           end ->
    Inv order (Process (Fans_headers p) (wire p)
                 (stdout p ++ match fan_report i r with
                              | Ok line => [line]
                              | Raise _ => []
                              end),
               Pool (<[i := Finished res0]> fs) ys)) as Hgen.
  { intros res0 ->.
    constructor; simpl; auto.
    - intros j. rewrite Hord. destruct (decide (j = i)) as [->|Hne].
      + rewrite list_lookup_insert_eq by assumption. split; intros _.
        * eexists. split; [reflexivity | discriminate].
        * exists (Running r). split; [assumption | discriminate].
      + rewrite list_lookup_insert_ne by congruence. tauto.
    - rewrite length_insert. assumption.
    - intros j Hj. rewrite length_insert.
      destruct (Hy j Hj) as [Hlen [res Hres]]. split; [assumption|].
      exists res. rewrite list_lookup_insert_ne; [assumption | congruence].
    - intros j r'. destruct (decide (j = i)) as [->|Hne].
      + rewrite list_lookup_insert_eq by assumption. discriminate.
      + rewrite list_lookup_insert_ne by congruence. apply Hr.
    - intros j res. destruct (decide (j = i)) as [->|Hne].
      + rewrite list_lookup_insert_eq by assumption. intros [= <-].
        destruct (Hr i r Hrun) as (k & Hk & Hrk). exists k.
        split; [assumption|]. rewrite <- Hrk.
        destruct (fan_report i r) as [line|e].
        * split; [reflexivity|]. apply elem_of_app. right.
          apply list_elem_of_here.
        * split; [reflexivity|]. intros; contradiction.
      + rewrite list_lookup_insert_ne by congruence. intros H.
        destruct (Hf j res H) as (k & Hk & Hrep). exists k.
        split; [assumption|].
        destruct (fan_report j (outcome order k j)) as [line|e].
        * destruct Hrep. split; [assumption|]. apply elem_of_app. auto.
        * destruct Hrep as [? Hrep]. split; [assumption|]. intros Hj.
          apply elem_of_app. auto.
    - etransitivity; [exact Hout|]. apply prefix_app_r. reflexivity. }
  destruct (fan_report i r) as [line|e].
  - exact (Hgen _ eq_refl).
  - pose proof (Hgen _ eq_refl) as H.
    rewrite app_nil_r in H. destruct p. exact H.
Qed.

Lemma inv_collect (order : list nat) (st : pool_state) (i : nat)
    (res : result Z) :
  Inv order st -> futures (snd st) !! i = Some (Finished res) ->
  length (futures (snd st)) = n -> i ∉ yielded (snd st) ->
  Inv order (do_action net self rate (Collect i) st).
Proof.
  intros [Hh Hw Hnd Hord Hb Hynd Hy Hr Hf Hout] Hfin Hlen Hny.
  destruct st as [p [fs ys]]; simpl in *. rewrite Hfin.
  assert (NoDup (ys ++ [i])) as Hynd'.
  { apply NoDup_app. split_and!; [assumption | | apply NoDup_singleton].
    intros j Hj ->%list_elem_of_singleton. contradiction. }
  assert (forall j, j ∈ ys ++ [i] ->
            length fs = n /\ exists res', fs !! j = Some (Finished res')) as Hy'.
  { intros j [Hj| ->%list_elem_of_singleton]%elem_of_app; eauto. }
  destruct res as [v|e].
  - constructor; simpl; auto.
    intros j res H. destruct (Hf j res H) as (k & Hk & Hrep). exists k.
    split; [assumption|].
    destruct (fan_report j (outcome order k j)) as [line|e]; [assumption|].
    destruct Hrep as [-> Hrep]. split; [reflexivity|].
    intros [Hj| ->%list_elem_of_singleton]%elem_of_app; [auto|]. congruence.
  - constructor; simpl; auto.
    + intros j res H. destruct (Hf j res H) as (k & Hk & Hrep). exists k.
      split; [assumption|].
      destruct (fan_report j (outcome order k j)) as [line|e'].
      * destruct Hrep. split; [assumption|]. apply elem_of_app. auto.
      * destruct Hrep as [-> Hrep]. split; [reflexivity|].
        intros [Hj| ->%list_elem_of_singleton]%elem_of_app;
          apply elem_of_app; [auto|].
        right. assert (e' = e) as -> by congruence. apply list_elem_of_here.
    + etransitivity; [exact Hout|]. apply prefix_app_r. reflexivity.
Qed.

(** Every enabled step keeps the invariant; only a [Send] extends the
    order of the requests. *)
Lemma inv_step (order : list nat) (st : pool_state) (a : action) :
  Inv order st -> a ∈ enabled n st ->
  exists order', Inv order' (do_action net self rate a st).
Proof.
  intros HI Ha. apply elem_of_enabled in Ha. destruct a as [|i|i|i].
  - exists order. apply inv_submit; assumption.
  - exists (order ++ [i]). apply inv_send; assumption.
  - destruct Ha as [r Hr]. exists order. eapply inv_finish; eassumption.
  - destruct Ha as ([res Hres] & Hlen & Hny). exists order.
    eapply inv_collect; eassumption.
Qed.

Lemma inv_reachable (st : pool_state) :
  rtc (pool_step net self rate n) (p0, Pool [] []) st ->
  exists order, Inv order st.
Proof.
  intros H. pattern st. revert st H. apply rtc_ind_r.
  - exists []. apply inv_init.
  - intros st st' _ (a & Ha & ->) (order & HI).
    eapply inv_step; eassumption.
Qed.

(** *** Final states *)

(** When no step is enabled every task has been submitted, has sent its
    request, has finished and has been collected. *)
Lemma inv_final (order : list nat) (st : pool_state) :
  Inv order st -> enabled n st = [] ->
  order ≡ₚ seq 0 n /\
  forall i, (i < n)%nat ->
    i ∈ yielded (snd st) /\
    exists res, futures (snd st) !! i = Some (Finished res).
Proof.
  intros HI Hnone.
  assert (forall a, a ∉ enabled n st) as Hno.
  { intros a. rewrite Hnone. apply not_elem_of_nil. }
  assert (length (futures (snd st)) = n) as Hlen.
  { pose proof (inv_bound _ _ _ _ _ _ _ HI) as Hb.
    pose proof (Hno Submit) as Hs. rewrite elem_of_enabled in Hs. lia. }
  assert (forall i, (i < n)%nat ->
            i ∈ yielded (snd st) /\
            exists res, futures (snd st) !! i = Some (Finished res)) as Hall.
  { intros i Hi. rewrite <- Hlen in Hi.
    apply lookup_lt_is_Some in Hi as [f Hf]. destruct f as [|r|res].
    - destruct (Hno (Send i)). apply elem_of_enabled. assumption.
    - destruct (Hno (Finish i)). apply elem_of_enabled. eauto.
    - split; [|eauto].
      destruct (decide (i ∈ yielded (snd st))) as [|Hny]; [assumption|].
      destruct (Hno (Collect i)). apply elem_of_enabled. eauto. }
  split; [|exact Hall].
  apply NoDup_Permutation.
  - exact (inv_order_nodup _ _ _ _ _ _ _ HI).
  - apply NoDup_seq.
  - intros i. rewrite (inv_order _ _ _ _ _ _ _ HI), elem_of_seq. split.
    + intros (f & Hf & _). apply lookup_lt_Some in Hf. lia.
    + intros Hi. destruct (Hall i) as [_ [res Hres]]; [lia|].
      exists (Finished res). split; [assumption | discriminate].
Qed.

(** In a final state every request has been answered for: the task of the
    [k]-th request printed its report, or its exception was printed by the
    collecting loop. *)
Lemma inv_final_reports (order : list nat) (st : pool_state) :
  Inv order st -> enabled n st = [] ->
  forall k i, order !! k = Some i ->
    match fan_report i (outcome order k i) with
    | Ok line => line ∈ stdout (fst st)
    | Raise e => fan_error_line e ∈ stdout (fst st)
    end.
Proof.
  intros HI Hnone k i Hk.
  destruct (inv_final order st HI Hnone) as [Hperm Hall].
  assert (i < n)%nat as Hi.
  { assert (i ∈ seq 0 n) as H.
    { rewrite <- Hperm. eapply list_elem_of_lookup_2. eassumption. }
    apply elem_of_seq in H. lia. }
  destruct (Hall i Hi) as [Hy [res Hres]].
  destruct (inv_finished _ _ _ _ _ _ _ HI i res Hres) as (k' & Hk' & Hrep).
  assert (k' = k) as ->.
  { eapply NoDup_lookup; [exact (inv_order_nodup _ _ _ _ _ _ _ HI) | eassumption..]. }
  destruct (fan_report i (outcome order k i)) as [line|e]; [tauto|].
  destruct Hrep as [_ Hrep]. auto.
Qed.

(** *** Progress *)

Lemma sum_weight_insert (fs : list future) (i : nat) (f f' : future) :
  fs !! i = Some f ->
  (sum_list (map future_weight (<[i := f']> fs)) + future_weight f =
   sum_list (map future_weight fs) + future_weight f')%nat.
Proof.
  revert i; induction fs as [|g fs IH]; intros [|i]; simpl; try discriminate.
  - intros [= ->]. lia.
  - intros H. specialize (IH i H). lia.
Qed.

Lemma sum_weight_snoc (fs : list future) (f : future) :
  sum_list (map future_weight (fs ++ [f])) =
    (sum_list (map future_weight fs) + future_weight f)%nat.
Proof. induction fs as [|g fs IH]; simpl; lia. Qed.

Lemma sum_weight_bound (fs : list future) :
  (sum_list (map future_weight fs) <= 2 * length fs)%nat.
Proof.
  induction fs as [|f fs IH]; simpl; [lia|]. destruct f; simpl; lia.
Qed.

(** Every enabled step is one step of progress. *)
Lemma progress_step (st : pool_state) (a : action) :
  a ∈ enabled n st ->
  pool_progress (snd (do_action net self rate a st)) = S (pool_progress (snd st)).
Proof.
  intros Ha. apply elem_of_enabled in Ha.
  destruct st as [p [fs ys]]. unfold pool_progress.
  destruct a as [|i|i|i]; simpl in *.
  - rewrite length_app, sum_weight_snoc. simpl. lia.
  - rewrite Ha. simpl. rewrite length_insert.
    pose proof (sum_weight_insert fs i Queued
                  (Running (net (wire p)
                     (fan_request self rate (self_headers self p) i))) Ha) as H.
    simpl in H. lia.
  - destruct Ha as [r Hr]. rewrite Hr.
    destruct (fan_report i r) as [line|e]; simpl; rewrite length_insert.
    + pose proof (sum_weight_insert fs i _ (Finished (Ok (Z.of_nat i))) Hr) as H.
      simpl in H. lia.
    + pose proof (sum_weight_insert fs i _ (Finished (Raise e)) Hr) as H.
      simpl in H. lia.
  - destruct Ha as ([res Hres] & _ & _). rewrite Hres.
    destruct res; simpl; rewrite length_app; simpl; lia.
Qed.

(** A pool of [n] tasks is at most [4 * n] steps from its start. *)
Lemma progress_bound (order : list nat) (st : pool_state) :
  Inv order st -> (pool_progress (snd st) <= 4 * n)%nat.
Proof.
  intros HI. unfold pool_progress.
  pose proof (inv_bound _ _ _ _ _ _ _ HI) as Hb.
  pose proof (sum_weight_bound (futures (snd st))) as Hs.
  assert (length (yielded (snd st)) <= n)%nat as Hy.
  { replace n with (length (seq 0 n)) at 1 by apply length_seq.
    apply submseteq_length, NoDup_submseteq.
    - exact (inv_yielded_nodup _ _ _ _ _ _ _ HI).
    - intros i Hi. destruct (inv_yielded _ _ _ _ _ _ _ HI i Hi) as [Hlen [res Hres]].
      apply lookup_lt_Some in Hres. apply elem_of_seq. lia. }
  lia.
Qed.

(** *** Running the pool under a scheduler *)

Lemma nth_elem_of {A} (l : list A) (k : nat) (d : A) :
  (k < length l)%nat -> nth k l d ∈ l.
Proof. intros H. apply list_elem_of_In, nth_In, H. Qed.

Lemma run_pool_unfold (sched : nat -> nat) (fuel k : nat) (st : pool_state) :
  enabled n st <> [] ->
  exists a, a ∈ enabled n st /\
    run_pool net self rate n sched (S fuel) k st =
      run_pool net self rate n sched fuel (S k) (do_action net self rate a st).
Proof.
  intros Hne. destruct (enabled n st) as [|a0 acts] eqn:Hen; [congruence|].
  exists (nth (sched k mod length (a0 :: acts)) (a0 :: acts) a0). split.
  - apply nth_elem_of, Nat.mod_upper_bound. discriminate.
  - cbn [run_pool]. rewrite Hen. reflexivity.
Qed.

(** A run of the pool is one of its interleavings. *)
Lemma run_pool_reachable (sched : nat -> nat) (fuel k : nat) (st : pool_state) :
  rtc (pool_step net self rate n) st (run_pool net self rate n sched fuel k st).
Proof.
  revert k st; induction fuel as [|fuel IH]; intros k st; [constructor|].
  destruct (decide (enabled n st = [])) as [Hnone|Hsome].
  - simpl. rewrite Hnone. constructor.
  - destruct (run_pool_unfold sched fuel k st Hsome) as (a & Ha & ->).
    eapply rtc_l; [|apply IH]. exists a. auto.
Qed.

(** With enough fuel for the steps that remain, a run ends in a state in
    which no step is enabled. *)
Lemma run_pool_final (sched : nat -> nat) (fuel k : nat) (order : list nat)
    (st : pool_state) :
  Inv order st -> (4 * n <= fuel + pool_progress (snd st))%nat ->
  enabled n (run_pool net self rate n sched fuel k st) = [].
Proof.
  revert k order st; induction fuel as [|fuel IH]; intros k order st HI Hfuel.
  - simpl. destruct (enabled n st) as [|a acts] eqn:Hen; [reflexivity|].
    assert (a ∈ enabled n st) as Ha by (rewrite Hen; apply list_elem_of_here).
    destruct (inv_step order st a HI Ha) as [order' HI'].
    pose proof (progress_bound _ _ HI') as Hb.
    rewrite (progress_step st a Ha) in Hb. simpl in Hfuel. lia.
  - destruct (decide (enabled n st = [])) as [Hnone|Hsome].
    + simpl. rewrite Hnone. assumption.
    + destruct (run_pool_unfold sched fuel k st Hsome) as (a & Ha & ->).
      destruct (inv_step order st a HI Ha) as [order' HI'].
      apply (IH _ order'); [assumption|].
      rewrite (progress_step st a Ha). lia.
Qed.

End Pool.

(** ** [change_fans]: every interleaving, and the run under a scheduler *)

Section ChangeFans.

Local Open Scope list_scope.

Variable net : network.
Variable self : Fans.
Variable rate : Z.

Lemma inv_final_outcome (n : nat) (p : process) (order : list nat)
    (st : pool_state) :
  pool_inv net self rate n p order st -> enabled n st = [] ->
  pool_outcome net self rate n p (fst st) order.
Proof.
  intros HI Hnone. unfold pool_outcome. split_and!.
  - apply (inv_final net self rate n p order st HI Hnone).
  - apply (inv_headers _ _ _ _ _ _ _ HI).
  - apply (inv_wire _ _ _ _ _ _ _ HI).
  - apply (inv_stdout _ _ _ _ _ _ _ HI).
  - apply (inv_final_reports net self rate n p order st HI Hnone).
Qed.

(** Whatever the interleaving, a pool that has come to rest has sent one
    request per fan and has a line on the output for each. *)
Lemma pool_final_outcome (n : nat) (p : process) (st : pool_state) :
  rtc (pool_step net self rate n) (p, Pool [] []) st ->
  enabled n st = [] ->
  exists order, pool_outcome net self rate n p (fst st) order.
Proof.
  intros Hreach Hnone.
  destruct (inv_reachable net self rate n p st Hreach) as [order HI].
  exists order. apply inv_final_outcome; assumption.
Qed.


(** With at least one fan [change_fans] returns, under any scheduler, in a
    final state of the pool. *)
Lemma change_fans_returns (sched : nat -> nat) (fans : Z) (p : process) :
  0 < fans ->
  exists order st,
    change_fans net sched self rate fans p = (Ok tt, fst st) /\
    rtc (pool_step net self rate (Z.to_nat fans)) (p, Pool [] []) st /\
    enabled (Z.to_nat fans) st = [] /\
    pool_outcome net self rate (Z.to_nat fans) p (fst st) order.
Proof.
  intros Hfans. unfold change_fans.
  rewrite bool_decide_eq_false_2 by lia.
  set (n := Z.to_nat fans).
  set (st := run_pool net self rate n sched (4 * n) 0 (p, Pool [] [])).
  assert (rtc (pool_step net self rate n) (p, Pool [] []) st) as Hreach
    by apply run_pool_reachable.
  assert (enabled n st = []) as Hnone.
  { apply (run_pool_final net self rate n p sched (4 * n) 0 []).
    - apply inv_init.
    - simpl. lia. }
  destruct (pool_final_outcome n p st Hreach Hnone) as [order Hout].
  exists order, st. auto.
Qed.

(** Without a fan the executor refuses to start and nothing is sent. *)
Lemma change_fans_refused (sched : nat -> nat) (fans : Z) (p : process) :
  fans <= 0 ->
  change_fans net sched self rate fans p =
    (Raise (ValueError "max_workers must be greater than 0"), p).
Proof.
  intros Hfans. unfold change_fans.
  rewrite bool_decide_eq_true_2 by lia. reflexivity.
Qed.


End ChangeFans.

(** ** The node worker *)

Section ControlFan.

Local Open Scope list_scope.

Variable net : network.

(** [get_random] sends its one request and reads the challenge. *)
Lemma get_random_eq (self : Fans) (p : process) :
  get_random net self p =
    let req := random_request self (Fans_headers p) in
    let p1 := Process (Fans_headers p) (wire p ++ [req]) (stdout p) in
    match net (wire p) req with
    | Raise e => (Raise e, p1)
    | Ok res => (json_item res "random", p1)
    end.
Proof.
  unfold get_random, bind, requests_call, lift, self_headers, random_request.
  cbv zeta. destruct (net _ _); reflexivity.
Qed.

(** [fans_mode] sends its one request and prints the reply's text. *)
Lemma fans_mode_eq (self : Fans) (mode : string) (p : process) :
  fans_mode net self mode p =
    let req := mode_request self mode (Fans_headers p) in
    match net (wire p) req with
    | Raise e =>
        (Raise e, Process (Fans_headers p) (wire p ++ [req]) (stdout p))
    | Ok resp =>
        (Ok tt,
         Process (Fans_headers p) (wire p ++ [req])
           (stdout p ++ ["response: " ++ resp_text resp]%string))
    end.
Proof.
  unfold fans_mode, bind, requests_call, print, self_headers, mode_request.
  cbv zeta. destruct (net _ _); reflexivity.
Qed.

Lemma get_random_wire (self : Fans) (p : process) :
  Fans_headers (snd (get_random net self p)) = Fans_headers p /\
  wire (snd (get_random net self p)) =
    wire p ++ [random_request self (Fans_headers p)].
Proof.
  rewrite get_random_eq. cbv zeta. destruct (net _ _); split; reflexivity.
Qed.

Lemma fans_mode_wire (self : Fans) (mode : string) (p : process) :
  Fans_headers (snd (fans_mode net self mode p)) = Fans_headers p /\
  wire (snd (fans_mode net self mode p)) =
    wire p ++ [mode_request self mode (Fans_headers p)].
Proof.
  rewrite fans_mode_eq. cbv zeta. destruct (net _ _); split; reflexivity.
Qed.

(** [control_fan] is the login, then the fan tasks, then the closing line. *)
Lemma control_fan_eq (sched : nat -> nat) (host username password : string)
    (rate fans : Z) (p : process) :
  let self := Build_Fans host username password in
  control_fan net sched host username password rate fans p =
    match node_login net self p with
    | (Raise e, p3) => (Raise e, p3)
    | (Ok _, p3) =>
        match change_fans net sched self rate fans p3 with
        | (Raise e, p4) => (Raise e, p4)
        | (Ok _, p4) =>
            (Ok tt,
             Process (Fans_headers p4) (wire p4)
               (stdout p4 ++ ["Completed fan control for node " ++ host]%string))
        end
    end.
Proof.
  intros self. unfold control_fan, node_login, bind. fold self.
  destruct (get_random net self p) as [[rs|e] p1]; [|reflexivity].
  destruct (get_session net self rs p1) as [[[]|e] p2]; [|reflexivity].
  destruct (fans_mode net self "manual" p2) as [[[]|e] p3]; [|reflexivity].
  destruct (change_fans net sched self rate fans p3) as [[[]|e] p4];
    reflexivity.
Qed.

(** C2.  In a node run that has reached the fan tasks, whatever the
    network does to each of them, [change_fans] catches every exception a
    task raises and prints its line for it; every fan's request is sent
    and every fan whose reply could be read has its report printed;
    [control_fan] returns normally and its closing line is the last one
    printed.  From any state of the pool, under any scheduling of what
    remains, the pool comes to rest. *)
Theorem fan_failure_is_contained (sched : nat -> nat)
    (host username password : string) (rate fans : Z) (p p3 : process) :
  let self := Build_Fans host username password in
  let n := Z.to_nat fans in
  let put := fan_request self rate (Fans_headers p3) in
  let r := control_fan net sched host username password rate fans p in
  0 < fans ->
  node_login net self p = (Ok tt, p3) ->
  fst r = Ok tt /\
  last (stdout (snd r)) = Some ("Completed fan control for node " ++ host)%string /\
  (exists order,
     order ≡ₚ seq 0 n /\
     wire (snd r) = wire p3 ++ map put order /\
     forall k i, order !! k = Some i ->
       match net (wire p3 ++ map put (take k order)) (put i) with
       | Raise e => fan_error_line e ∈ stdout (snd r)
       | Ok resp =>
           match json_item resp "duty" with
           | Ok duty => fan_report_line i duty ∈ stdout (snd r)
           | Raise e => fan_error_line e ∈ stdout (snd r)
           end
       end) /\
  (forall st sched',
     rtc (pool_step net self rate n) (p3, Pool [] []) st ->
     let st' := run_pool net self rate n sched' (4 * n) 0 st in
     rtc (pool_step net self rate n) st st' /\ enabled n st' = []).
Proof.
  intros self n put r Hfans Hlogin.
  destruct (change_fans_returns net self rate sched fans p3 Hfans)
    as (order & st & Heq & _ & _ & Hperm & _ & Hwire & _ & Hrep).
  assert (r = (Ok tt,
               Process (Fans_headers (fst st)) (wire (fst st))
                 (stdout (fst st)
                  ++ ["Completed fan control for node " ++ host]%string)))
    as Hr.
  { unfold r. rewrite control_fan_eq. cbv zeta. fold self.
    rewrite Hlogin, Heq. reflexivity. }
  rewrite Hr. cbn [fst snd stdout wire]. split_and!.
  - reflexivity.
  - apply last_snoc.
  - exists order. split_and!; [assumption | assumption |].
    intros k i Hk. specialize (Hrep k i Hk).
    unfold fan_outcome, fan_history, fan_report in Hrep. fold put in Hrep.
    destruct (net (wire p3 ++ map put (take k order)) (put i)) as [resp|e].
    + destruct (json_item resp "duty") as [duty|e];
        apply elem_of_app; left; exact Hrep.
    + apply elem_of_app; left; exact Hrep.
  - intros st0 sched' Hreach. split.
    + apply run_pool_reachable.
    + destruct (inv_reachable net self rate n p3 st0 Hreach) as [order0 HI].
      apply (run_pool_final net self rate n p3 sched' (4 * n) 0 order0 st0 HI).
      lia.
Qed.

Lemma change_fans_wire (sched : nat -> nat) (self : Fans) (rate fans : Z)
    (p : process) :
  exists order,
    order ≡ₚ seq 0 (Z.to_nat fans) /\
    wire (snd (change_fans net sched self rate fans p)) =
      wire p ++ map (fan_request self rate (Fans_headers p)) order /\
    (0 < fans -> fst (change_fans net sched self rate fans p) = Ok tt) /\
    (fans <= 0 ->
     change_fans net sched self rate fans p =
       (Raise (ValueError "max_workers must be greater than 0"), p)).
Proof.
  destruct (decide (0 < fans)) as [Hfans|Hfans].
  - destruct (change_fans_returns net self rate sched fans p Hfans)
      as (order & st & Heq & _ & _ & Hperm & _ & Hwire & _).
    exists order. rewrite Heq. split_and!; auto. lia.
  - exists []. rewrite change_fans_refused by lia.
    replace (Z.to_nat fans) with 0%nat by lia. simpl.
    split_and!; auto; [by rewrite app_nil_r | lia].
Qed.

End ControlFan.

(** C3.  A node worker sends the challenge request first; when a step
    raises, [control_fan] raises the same exception and nothing more is on
    the wire than the requests up to that step, each sent once; when the
    three login steps return, the fan requests follow the mode request,
    one per fan, and nothing else is sent.  What a worker does depends on
    its own world only: changing the worlds of the other workers leaves
    its result as it is. *)
Theorem control_fan_is_linear (net : network) (sched : nat -> nat)
    (host username password : string) (rate fans : Z) (p : process) :
  let self := Build_Fans host username password in
  let r := control_fan net sched host username password rate fans p in
  let q1 := random_request self (Fans_headers p) in
  let q2 := fun rs => session_request self rs (Fans_headers p) in
  let q3 := fun p2 => mode_request self "manual" (Fans_headers p2) in
  (forall e p1,
     get_random net self p = (Raise e, p1) ->
     r = (Raise e, p1) /\ wire p1 = (wire p ++ [q1])%list) /\
  (forall rs p1 e p2,
     get_random net self p = (Ok rs, p1) ->
     get_session net self rs p1 = (Raise e, p2) ->
     r = (Raise e, p2) /\ wire p2 = (wire p ++ [q1; q2 rs])%list) /\
  (forall rs p1 p2 e p3,
     get_random net self p = (Ok rs, p1) ->
     get_session net self rs p1 = (Ok tt, p2) ->
     fans_mode net self "manual" p2 = (Raise e, p3) ->
     r = (Raise e, p3) /\ wire p3 = (wire p ++ [q1; q2 rs; q3 p2])%list) /\
  (forall rs p1 p2 p3,
     get_random net self p = (Ok rs, p1) ->
     get_session net self rs p1 = (Ok tt, p2) ->
     fans_mode net self "manual" p2 = (Ok tt, p3) ->
     exists order,
       order ≡ₚ seq 0 (Z.to_nat fans) /\
       wire (snd r) =
         (wire p ++ [q1; q2 rs; q3 p2]
          ++ map (fan_request self rate (Fans_headers p2)) order)%list /\
       (0 < fans -> fst r = Ok tt) /\
       (fans <= 0 ->
        fst r = Raise (ValueError "max_workers must be greater than 0"))) /\
  (forall (worlds worlds' : nat -> world) prog args k,
     worlds k = worlds' k ->
     main_workers (main worlds prog args) !! k =
       main_workers (main worlds' prog args) !! k).
Proof.
  intros self r q1 q2 q3.
  assert (forall rs p1, get_random net self p = (Ok rs, p1) ->
            Fans_headers p1 = Fans_headers p /\
            wire p1 = (wire p ++ [q1])%list) as Hrandom.
  { intros rs p1 H. pose proof (get_random_wire net self p) as Hw.
    rewrite H in Hw. exact Hw. }
  assert (forall rs p1 res p2,
            get_random net self p = (Ok rs, p1) ->
            get_session net self rs p1 = (res, p2) ->
            wire p2 = (wire p ++ [q1; q2 rs])%list) as Hsession.
  { intros rs p1 res p2 H1 H2. destruct (Hrandom rs p1 H1) as [Hh Hw].
    pose proof (get_session_wire net self rs p1) as [Hw2 _].
    rewrite H2 in Hw2. simpl in Hw2.
    rewrite Hw2, Hw, Hh, <- app_assoc. reflexivity. }
  assert (forall rs p1 p2 res p3,
            get_random net self p = (Ok rs, p1) ->
            get_session net self rs p1 = (Ok tt, p2) ->
            fans_mode net self "manual" p2 = (res, p3) ->
            Fans_headers p3 = Fans_headers p2 /\
            wire p3 = (wire p ++ [q1; q2 rs; q3 p2])%list) as Hmode.
  { intros rs p1 p2 res p3 H1 H2 H3.
    pose proof (fans_mode_wire net self "manual" p2) as [Hh Hw].
    rewrite H3 in Hh, Hw. simpl in Hh, Hw. split; [assumption|].
    rewrite Hw, (Hsession rs p1 (Ok tt) p2 H1 H2), <- app_assoc. reflexivity. }
  split_and!.
  - intros e p1 H. split.
    + unfold r, control_fan, bind. fold self. rewrite H. reflexivity.
    + pose proof (get_random_wire net self p) as [_ Hw].
      rewrite H in Hw. exact Hw.
  - intros rs p1 e p2 H1 H2. split.
    + unfold r, control_fan, bind. fold self. rewrite H1, H2. reflexivity.
    + exact (Hsession rs p1 (Raise e) p2 H1 H2).
  - intros rs p1 p2 e p3 H1 H2 H3. split.
    + unfold r, control_fan, bind. fold self. rewrite H1, H2, H3. reflexivity.
    + exact (proj2 (Hmode rs p1 p2 (Raise e) p3 H1 H2 H3)).
  - intros rs p1 p2 p3 H1 H2 H3.
    destruct (Hmode rs p1 p2 (Ok tt) p3 H1 H2 H3) as [Hh Hw].
    destruct (change_fans_wire net sched self rate fans p3)
      as (order & Hperm & Hwire & Hok & Hrefused).
    exists order. split; [assumption|].
    assert (r = match change_fans net sched self rate fans p3 with
                | (Raise e, p4) => (Raise e, p4)
                | (Ok _, p4) =>
                    (Ok tt,
                     Process (Fans_headers p4) (wire p4)
                       (stdout p4 ++ ["Completed fan control for node " ++ host]))
                end) as Hr.
    { unfold r, control_fan, bind. fold self. rewrite H1, H2, H3.
      destruct (change_fans net sched self rate fans p3) as [[[]|e] p4];
        reflexivity. }
    rewrite Hr.
    destruct (change_fans net sched self rate fans p3) as [[[]|e] p4] eqn:Hcf;
      cbn [fst snd wire] in *.
    + split_and!.
      * rewrite Hwire, Hw, Hh, <- !app_assoc. reflexivity.
      * reflexivity.
      * intros Hle. specialize (Hrefused Hle). discriminate.
    + split_and!.
      * rewrite Hwire, Hw, Hh, <- !app_assoc. reflexivity.
      * intros Hlt. specialize (Hok Hlt). discriminate.
      * intros Hle. specialize (Hrefused Hle). congruence.
  - intros worlds worlds' prog args k Hk. unfold main.
    destruct (resolve_hosts _ _ _) as [hosts out].
    cbn [main_workers]. rewrite !list_lookup_imap, Hk. reflexivity.
Qed.

(** The first request of a node worker is the challenge request, with the
    headers the process had when the worker began. *)
Lemma control_fan_first_request (net : network) (sched : nat -> nat)
    (host username password : string) (rate fans : Z) (p : process) :
  exists rest,
    wire (snd (control_fan net sched host username password rate fans p)) =
      (wire p
       ++ random_request (Build_Fans host username password) (Fans_headers p)
          :: rest)%list.
Proof.
  set (self := Build_Fans host username password).
  unfold control_fan, bind. fold self.
  pose proof (get_random_wire net self p) as [_ Hw1].
  destruct (get_random net self p) as [[rs|e] p1]; simpl in Hw1;
    [|exists []; exact Hw1].
  pose proof (get_session_wire net self rs p1) as [Hw2 _].
  destruct (get_session net self rs p1) as [[[]|e] p2]; simpl in Hw2;
    [|eexists; simpl; rewrite Hw2, Hw1, <- app_assoc; reflexivity].
  pose proof (fans_mode_wire net self "manual" p2) as [_ Hw3].
  destruct (fans_mode net self "manual" p2) as [[[]|e] p3]; simpl in Hw3;
    [|eexists; simpl; rewrite Hw3, Hw2, Hw1, <- !app_assoc; reflexivity].
  destruct (change_fans_wire net sched self rate fans p3)
    as (order & _ & Hw4 & _).
  destruct (change_fans net sched self rate fans p3) as [[[]|e] p4];
    simpl in Hw4; eexists; simpl;
    rewrite Hw4, Hw3, Hw2, Hw1, <- !app_assoc; reflexivity.
Qed.

(** C10.  [Fans.headers] belongs to the class: after a successful
    [get_session] through one instance, the header map any other instance
    of the same process reads is the one that call wrote ([Cookie],
    [X-Csrftoken], [content-type]), and the next request made through the
    other instance carries it.  Node workers do not see each other's
    session only because each runs [control_fan] in a process of its own,
    which starts from the headers of the class body: its first request
    carries neither a cookie nor a CSRF token. *)
Theorem headers_shared_by_all_instances (net : network) (f1 f2 : Fans)
    (rs : pyval) (p p' : process) :
  get_session net f1 rs p = (Ok tt, p') ->
  (exists tok csrf,
     self_headers f2 p' = session_headers tok csrf (Fans_headers p) /\
     self_headers f2 p' = self_headers f1 p' /\
     self_headers f2 p' !! "Cookie" =
       Some (PStr ("lang=zh-cn;QSESSIONID=" ++ tok ++ "; refresh_disable=1")) /\
     self_headers f2 p' !! "X-Csrftoken" = Some csrf /\
     self_headers f2 p' !! "content-type" = Some (PStr "application/json") /\
     wire (snd (get_random net f2 p')) =
       (wire p'
        ++ [random_request f2 (session_headers tok csrf (Fans_headers p))])%list) /\
  (forall (worlds : nat -> world) prog args k w,
     main_workers (main worlds prog args) !! k = Some w ->
     exists a rest,
       w = run_worker (worlds k) a /\
       wire (snd w) =
         random_request
           (Build_Fans (wa_host a) (wa_username a) (wa_password a))
           initial_headers :: rest /\
       initial_headers !! "Cookie" = None /\
       initial_headers !! "X-Csrftoken" = None).
Proof.
  intros Hsession. split.
  - rewrite get_session_eq in Hsession. cbv zeta in Hsession.
    destruct (net _ _) as [resp|e]; [|discriminate].
    destruct (set_cookie_header resp) as [cookie|e]; [|discriminate].
    destruct (findall_first cookie) as [tok|e]; [|discriminate].
    destruct (json_item resp "CSRFToken") as [csrf|e]; [|discriminate].
    injection Hsession as <-.
    exists tok, csrf. unfold self_headers. cbn [Fans_headers wire].
    destruct (session_headers_lookup tok csrf (Fans_headers p))
      as (H1 & H2 & H3 & _).
    split_and!; auto.
    pose proof (get_random_wire net f2
                  (Process (session_headers tok csrf (Fans_headers p))
                     (wire p ++ [session_request f1 rs (Fans_headers p)])
                     (stdout p))) as [_ Hw].
    exact Hw.
  - intros worlds prog args k w Hw. unfold main in Hw.
    destruct (resolve_hosts _ _ _) as [hosts out].
    cbn [main_workers] in Hw. rewrite list_lookup_imap in Hw.
    destruct (hosts !! k) as [a|]; [|discriminate].
    injection Hw as <-.
    destruct (control_fan_first_request (world_net (worlds k))
                (world_sched (worlds k)) (wa_host a) (wa_username a)
                (wa_password a) (wa_rate a) (wa_fans a) initial_process)
      as [rest Hrest].
    exists a, rest. split_and!; [reflexivity | exact Hrest | reflexivity..].
Qed.

(** ** Examples on the mocked BMCs *)


Lemma fan_failure_is_contained_witness :
  let r := control_fan (flaky_network "https://10.0.0.1/api/settings/fan/1")
             (fun _ => O) "10.0.0.1" "admin" "admin" 30 3 initial_process in
  fst r = Ok tt /\
  last (stdout (snd r)) = Some "Completed fan control for node 10.0.0.1".
Proof.
  pose proof (fan_failure_is_contained
                (flaky_network "https://10.0.0.1/api/settings/fan/1")
                (fun _ => O) "10.0.0.1" "admin" "admin" 30 3 initial_process
                (snd (node_login
                        (flaky_network "https://10.0.0.1/api/settings/fan/1")
                        (Build_Fans "10.0.0.1" "admin" "admin")
                        initial_process))) as H.
  cbv zeta in H.
  destruct H as (H1 & H2 & _); [reflexivity | vm_compute; reflexivity |].
  split; assumption.
Defined.

Lemma control_fan_is_linear_witness :
  let r := control_fan (flaky_network "https://10.0.0.1/api/settings/fans-mode")
             (fun _ => O) "10.0.0.1" "admin" "admin" 30 3 initial_process in
  fst r = Raise (Exn "ConnectionError" "connection refused") /\
  length (wire (snd r)) = 3%nat.
Proof.
  set (net := flaky_network "https://10.0.0.1/api/settings/fans-mode").
  set (self := Build_Fans "10.0.0.1" "admin" "admin").
  pose proof (control_fan_is_linear net (fun _ => O) "10.0.0.1" "admin" "admin"
                30 3 initial_process) as H.
  cbv zeta in H. destruct H as (_ & _ & H & _).
  set (p1 := snd (get_random net self initial_process)).
  set (p2 := snd (get_session net self (PStr "r4nd0m") p1)).
  set (p3 := snd (fans_mode net self "manual" p2)).
  destruct (H (PStr "r4nd0m") p1 p2
              (Exn "ConnectionError" "connection refused") p3)
    as [Hr Hw]; [vm_compute; reflexivity..|].
  intros r. unfold r. rewrite Hr. split; [reflexivity|].
  cbn [snd]. rewrite Hw. reflexivity.
Defined.


Lemma headers_shared_by_all_instances_witness :
  let p' := snd (get_session echo_network
                   (Build_Fans "10.0.0.1" "admin" "admin") (PStr "r4nd0m")
                   initial_process) in
  exists tok,
    self_headers (Build_Fans "10.0.0.2" "admin" "admin") p' !! "Cookie" =
      Some (PStr ("lang=zh-cn;QSESSIONID=" ++ tok ++ "; refresh_disable=1")).
Proof.
  intros p'.
  destruct (proj1 (headers_shared_by_all_instances echo_network
                     (Build_Fans "10.0.0.1" "admin" "admin")
                     (Build_Fans "10.0.0.2" "admin" "admin")
                     (PStr "r4nd0m") initial_process p'
                     ltac:(vm_compute; reflexivity)))
    as (tok & csrf & _ & _ & Hcookie & _).
  exists tok. exact Hcookie.
Defined.

(** * Further properties *)

(** ** [int] and the sign *)

Lemma int_sign_cases (s : string) :
  Py.int s =
    match Py.skip_spaces s with
    | String c r =>
        if Ascii.eqb c "+" then int_digits 1 r
        else if Ascii.eqb c "-" then int_digits (-1) r
        else int_digits 1 (String c r)
    | EmptyString => None
    end.
Proof.
  unfold Py.int. destruct (Py.skip_spaces s) as [|c r]; [reflexivity|].
  destruct c as [[] [] [] [] [] [] [] []]; reflexivity.
Qed.

Lemma digit_value_range (c : ascii) (d : Z) :
  Py.digit_value c = Some d -> 0 <= d <= 9.
Proof.
  unfold Py.digit_value.
  destruct ((48 <=? nat_of_ascii c)%nat && (nat_of_ascii c <=? 57)%nat) eqn:H;
    [|discriminate].
  intros [= <-]. apply andb_true_iff in H as [H1 H2].
  apply Nat.leb_le in H1, H2. lia.
Qed.

Lemma scan_digits_nonneg (s : string) (prev : ascii) (acc v : Z) (rest : string) :
  0 <= acc -> Py.scan_digits prev acc s = Some (v, rest) -> 0 <= v.
Proof.
  revert prev acc. induction s as [|c s IH]; intros prev acc Hacc; simpl.
  - destruct (Ascii.eqb prev "_"); [discriminate|]. intros [= <- _]. assumption.
  - destruct (Py.digit_value c) as [d|] eqn:Hd.
    + apply digit_value_range in Hd. apply IH. lia.
    + destruct (Ascii.eqb c "_").
      * destruct (Ascii.eqb prev "_"); [discriminate|]. apply IH. assumption.
      * destruct (Ascii.eqb prev "_"); [discriminate|].
        intros [= <- _]. assumption.
Qed.

Lemma int_digits_sign (sign : Z) (s : string) (n : Z) :
  int_digits sign s = Some n -> exists v, 0 <= v /\ n = sign * v.
Proof.
  unfold int_digits. destruct s as [|c s]; [discriminate|].
  destruct (Py.digit_value c); [|discriminate].
  destruct (Py.scan_digits "000" 0 (String c s)) as [[v rest]|] eqn:Hscan;
    [|discriminate].
  destruct (Py.skip_spaces rest); [|discriminate].
  intros [= <-]. exists v. split; [|reflexivity].
  eapply scan_digits_nonneg; [|eassumption]. lia.
Qed.

Lemma contains_skip_spaces (c : ascii) (s : string) :
  Py.contains c s = false -> Py.contains c (Py.skip_spaces s) = false.
Proof.
  induction s as [|a s IH]; simpl; [auto|].
  intros [Ha Hs]%orb_false_elim.
  destruct (Py.is_space a); [auto|]. simpl. rewrite Ha, Hs. reflexivity.
Qed.

(** A literal without a minus sign is not negative. *)
Lemma int_no_dash_nonneg (s : string) (n : Z) :
  Py.contains "-" s = false -> Py.int s = Some n -> 0 <= n.
Proof.
  intros Hs. rewrite int_sign_cases.
  apply contains_skip_spaces in Hs.
  destruct (Py.skip_spaces s) as [|c r]; [discriminate|].
  simpl in Hs. apply orb_false_elim in Hs as [Hc Hr].
  destruct (Ascii.eqb c "+").
  - intros (v & Hv & ->)%int_digits_sign. lia.
  - rewrite Hc. intros (v & Hv & ->)%int_digits_sign. lia.
Qed.

(** ** [split] and [join] *)

Lemma split_nonempty (c : ascii) (s : string) : Py.split c s <> [].
Proof.
  induction s as [|a s IH]; simpl; [discriminate|].
  destruct (Ascii.eqb a c); [discriminate|].
  destruct (Py.split c s); discriminate.
Qed.

Lemma split_app (c : ascii) (s t : string) :
  Py.split c (s ++ String c t) = (Py.split c s ++ Py.split c t)%list.
Proof.
  induction s as [|a s IH]; simpl; app_simpl; simpl.
  - rewrite Ascii.eqb_refl. reflexivity.
  - rewrite IH. destruct (Ascii.eqb a c); [reflexivity|].
    pose proof (split_nonempty c s) as Hne.
    destruct (Py.split c s) as [|p ps]; [congruence|]. reflexivity.
Qed.

Lemma split_parts_no_sep (c : ascii) (s : string) :
  Forall (fun p => Py.contains c p = false) (Py.split c s).
Proof.
  induction s as [|a s IH]; simpl.
  - constructor; [reflexivity | constructor].
  - destruct (Ascii.eqb a c) eqn:Ha.
    + constructor; [reflexivity | assumption].
    + pose proof (split_nonempty c s) as Hne.
      destruct (Py.split c s) as [|p ps]; [congruence|].
      inversion IH as [|? ? Hp Hps]; subst.
      constructor; [|assumption]. simpl. rewrite Ha, Hp. reflexivity.
Qed.

(** [sep.join(s.split(sep)) == s]. *)
Lemma join_split (c : ascii) (s : string) :
  Py.join (String c "") (Py.split c s) = s.
Proof.
  induction s as [|a s IH]; simpl; [reflexivity|].
  destruct (Ascii.eqb_spec a c) as [->|Hne].
  - pose proof (split_nonempty c s) as Hnil.
    destruct (Py.split c s) as [|p ps] eqn:Hsplit; [congruence|].
    change (Py.join (String c "") ("" :: p :: ps))
      with ("" ++ String c "" ++ Py.join (String c "") (p :: ps)).
    rewrite IH. reflexivity.
  - pose proof (split_nonempty c s) as Hnil.
    destruct (Py.split c s) as [|p ps] eqn:Hsplit; [congruence|].
    destruct ps as [|q ps].
    + simpl in *. congruence.
    + change (Py.join (String c "") (String a p :: q :: ps))
        with (String a p ++ String c "" ++ Py.join (String c "") (q :: ps)).
      change (Py.join (String c "") (p :: q :: ps))
        with (p ++ String c "" ++ Py.join (String c "") (q :: ps)) in IH.
      app_simpl. rewrite IH. reflexivity.
Qed.

(** ** What [parse_node_range] accepts, and what it returns *)

Lemma seqZ_sorted (m len : Z) : StronglySorted Z.lt (seqZ m len).
Proof.
  destruct (decide (len <= 0)) as [Hle|Hpos].
  { rewrite seqZ_nil by assumption. constructor. }
  rewrite <- (Z2Nat.id len) by lia.
  induction (Z.to_nat len) as [|k IH]; [constructor|].
  rewrite seqZ_S. apply StronglySorted_app_2; [|assumption|repeat constructor].
  intros x y Hx ->%list_elem_of_singleton. apply elem_of_seqZ in Hx. lia.
Qed.

(** The two forms of an accepted specification. *)
Lemma parse_node_range_inv (s : string) (l : list Z) :
  parse_node_range s = Some l ->
  (Py.contains "-" s = false /\ exists n, Py.int s = Some n /\ l = [n]) \/
  (exists sa sb a b,
     s = sa ++ "-" ++ sb /\
     Py.contains "-" sa = false /\ Py.contains "-" sb = false /\
     Py.int sa = Some a /\ Py.int sb = Some b /\
     l = seqZ a (b - a + 1)).
Proof.
  unfold parse_node_range.
  destruct (Py.contains "-" s) eqn:Hdash.
  - intros H. right.
    pose proof (join_split "-" s) as Hjoin.
    pose proof (split_parts_no_sep "-" s) as Hparts.
    destruct (Py.split "-" s) as [|p1 [|p2 [|p3 ps]]]; simpl in H;
      try discriminate.
    destruct (Py.int p1) as [a|] eqn:Ha; [|discriminate].
    destruct (Py.int p2) as [b|] eqn:Hb; [|discriminate].
    injection H as <-.
    inversion Hparts as [|? ? H1 Hrest]; subst.
    inversion Hrest as [|? ? H2 _]; subst.
    exists p1, p2, a, b. split_and!; auto.
    unfold Py.range. f_equal. lia.
  - intros H. left. split; [reflexivity|].
    destruct (Py.int s) as [n|]; [|discriminate].
    injection H as <-. eauto.
Qed.

(** Whenever [parse_node_range] returns, its argument is a literal [int]
    accepts and the result is that one number, or two such literals with a
    single dash between them and the result is the ascending run from the
    first number to the second (empty when the second is the smaller); no
    part holds a minus sign. *)
Theorem parse_node_range_accepted_forms (s : string) (l : list Z) :
  parse_node_range s = Some l ->
  (Py.contains "-" s = false /\ exists n, Py.int s = Some n /\ l = [n]) \/
  (exists sa sb a b,
     s = sa ++ "-" ++ sb /\
     Py.contains "-" sa = false /\ Py.contains "-" sb = false /\
     Py.int sa = Some a /\ Py.int sb = Some b /\
     length l = Z.to_nat (b - a + 1) /\
     forall (i : nat) (x : Z),
       l !! i = Some x <-> x = a + Z.of_nat i /\ x <= b).
Proof.
  intros [H|(sa & sb & a & b & Hs & Ha & Hb & Ia & Ib & ->)]%parse_node_range_inv;
    [left; assumption | right].
  exists sa, sb, a, b. split_and!; auto.
  - apply length_seqZ.
  - intros i x. rewrite lookup_seqZ. lia.
Qed.

Lemma parse_node_range_accepted_forms_witness :
  exists sa sb a b,
    "2-4" = sa ++ "-" ++ sb /\ Py.int sa = Some a /\ Py.int sb = Some b.
Proof.
  destruct (parse_node_range_accepted_forms "2-4" [2; 3; 4] eq_refl)
    as [[H _]|(sa & sb & a & b & Hs & _ & _ & Ia & Ib & _)].
  - discriminate H.
  - exists sa, sb, a, b. auto.
Defined.

(** The list [parse_node_range] returns never holds a negative number, is
    strictly ascending, and so has no duplicates. *)
Theorem parse_node_range_sorted_nonneg (s : string) (l : list Z) :
  parse_node_range s = Some l ->
  Forall (fun n => 0 <= n) l /\ StronglySorted Z.lt l /\ NoDup l.
Proof.
  intros [(Hs & n & Hn & ->)|(sa & sb & a & b & _ & Ha & _ & Ia & _ & ->)]%parse_node_range_inv.
  - split_and!.
    + constructor; [|constructor]. eapply int_no_dash_nonneg; eassumption.
    + repeat constructor.
    + apply NoDup_singleton.
  - pose proof (int_no_dash_nonneg sa a Ha Ia) as Hnn. split_and!.
    + apply Forall_seqZ. lia.
    + apply seqZ_sorted.
    + apply NoDup_seqZ.
Qed.

Lemma parse_node_range_sorted_nonneg_witness :
  Forall (fun n => 0 <= n) [0; 1; 2; 3] /\ StronglySorted Z.lt [0; 1; 2; 3]
  /\ NoDup [0; 1; 2; 3].
Proof. exact (parse_node_range_sorted_nonneg "0-3" [0; 1; 2; 3] eq_refl). Defined.

(** A specification that begins with a dash, ends with one or holds two
    raises [ValueError]: a negative bound cannot be written. *)
Theorem parse_node_range_rejects_stray_dashes :
  (forall t, parse_node_range (String "-" t) = None) /\
  (forall s, parse_node_range (s ++ "-") = None) /\
  (forall s1 s2 s3, parse_node_range (s1 ++ "-" ++ s2 ++ "-" ++ s3) = None).
Proof.
  split_and!.
  - intros t. unfold parse_node_range. simpl.
    destruct (Py.split "-" t) as [|p [|q ps]]; reflexivity.
  - intros s. unfold parse_node_range.
    rewrite contains_app. simpl Py.contains at 2. rewrite orb_true_r.
    change (s ++ "-") with (s ++ String "-" "").
    rewrite split_app. simpl Py.split at 2.
    pose proof (split_nonempty "-" s) as Hne.
    destruct (Py.split "-" s) as [|p [|q ps]]; [congruence| |].
    + simpl. destruct (Py.int p); reflexivity.
    + destruct ps; reflexivity.
  - intros s1 s2 s3. unfold parse_node_range.
    rewrite contains_app. simpl Py.contains at 2. rewrite orb_true_r.
    change ("-" ++ s2 ++ "-" ++ s3) with (String "-" (s2 ++ String "-" s3)).
    rewrite !split_app.
    pose proof (split_nonempty "-" s1) as H1.
    pose proof (split_nonempty "-" s2) as H2.
    pose proof (split_nonempty "-" s3) as H3.
    destruct (Py.split "-" s1) as [|p1 ps1]; [congruence|].
    destruct (Py.split "-" s2) as [|p2 ps2]; [congruence|].
    destruct (Py.split "-" s3) as [|p3 ps3]; [congruence|].
    destruct ps1 as [|q1 ps1]; simpl.
    + destruct ps2; reflexivity.
    + destruct ps1; reflexivity.
Qed.

(** ** The control set of [main] *)








Lemma filter_all (P : Z -> Prop) `{forall x, Decision (P x)} (l : list Z) :
  Forall P l -> filter P l = l.
Proof.
  induction 1 as [|x l Hx _ IH]; [reflexivity|].
  rewrite filter_cons_True, IH by assumption. reflexivity.
Qed.

Lemma node_warnings_in_range (nodes : list Z) :
  Forall (fun n => 1 <= n <= 5) nodes -> node_warnings nodes = [].
Proof.
  induction 1 as [|n nodes Hn _ IH]; simpl; [reflexivity|].
  replace ((n <? 1) || (5 <? n))%Z with false by lia. exact IH.
Qed.

Lemma str_int_to_N (z : Z) :
  0 <= z -> Py.str_int z = Py.str_int (Z.of_N (Z.to_N z)).
Proof. intros Hz. rewrite Z2N.id by assumption. reflexivity. Qed.

(** A specification within the table is taken as it is: for
    [1 <= a <= b <= 5] the specification [a-b] selects exactly the nodes
    from [a] to [b] and a single [a] selects exactly [[a]]; no warning is
    printed for the nodes, and one worker is started per node. *)
Theorem in_range_spec_selects_exactly (worlds : nat -> world)
    (prog : string) (rest : list string) (a b : Z) :
  1 <= a -> a <= b -> b <= 5 ->
  let range_spec := Py.str_int a ++ "-" ++ Py.str_int b in
  (let s := main_settings prog (range_spec :: rest) in
   set_nodes s = seqZ a (b - a + 1) /\
   set_out s =
     (snd (select_rate 20 rest) ++ [settings_line (set_rate s) (set_nodes s)])%list /\
   length (main_workers (main worlds prog (range_spec :: rest))) =
     Z.to_nat (b - a + 1)) /\
  (let s := main_settings prog (Py.str_int a :: rest) in
   set_nodes s = [a] /\
   set_out s =
     (snd (select_rate 20 rest) ++ [settings_line (set_rate s) [a]])%list).
Proof.
  intros Ha Hab Hb range_spec.
  assert (parse_node_range range_spec = Some (seqZ a (b - a + 1))) as Hrange.
  { unfold range_spec. rewrite (str_int_to_N a), (str_int_to_N b) by lia.
    rewrite (parse_node_range_pair _ _ (Z.of_N (Z.to_N a)) (Z.of_N (Z.to_N b)))
      by auto using contains_str_int, int_str_int.
    unfold Py.range. rewrite !Z2N.id by lia. do 2 f_equal. lia. }
  assert (parse_node_range (Py.str_int a) = Some [a]) as Hsingle.
  { rewrite (str_int_to_N a) by lia.
    rewrite (parse_node_range_single _ (Z.of_N (Z.to_N a)))
      by auto using contains_str_int, int_str_int.
    rewrite Z2N.id by lia. reflexivity. }
  assert (Forall (fun n => 1 <= n <= 5) (seqZ a (b - a + 1))) as Hall.
  { apply Forall_seqZ. lia. }
  assert (Forall (fun n => 1 <= n <= 5) [a]) as Hall1.
  { constructor; [lia | constructor]. }
  split.
  - cbv zeta. rewrite main_settings_cons. unfold select_nodes.
    rewrite Hrange. cbn [fst snd set_nodes set_out set_rate].
    rewrite (filter_all _ _ Hall), (node_warnings_in_range _ Hall).
    split_and!; [reflexivity | reflexivity |].
    pose proof (main_workers_of_settings worlds prog (range_spec :: rest)) as Hr.
    cbv zeta in Hr. rewrite main_settings_cons in Hr. unfold select_nodes in Hr.
    rewrite Hrange in Hr. cbn [fst snd set_nodes set_out set_rate] in Hr.
    rewrite (filter_all _ _ Hall) in Hr. rewrite (Hr Hall).
    cbn [main_workers]. rewrite length_imap, length_map, length_seqZ.
    reflexivity.
  - cbv zeta. rewrite main_settings_cons. unfold select_nodes.
    rewrite Hsingle. cbn [fst snd set_nodes set_out set_rate].
    rewrite (filter_all _ _ Hall1), (node_warnings_in_range _ Hall1).
    split; reflexivity.
Qed.

Lemma in_range_spec_selects_exactly_witness :
  set_nodes (main_settings "fan.py" ["2-4"; "30"]) = [2; 3; 4].
Proof.
  pose proof (proj1 (in_range_spec_selects_exactly
                       (fun _ => World (fun _ _ => Raise IndexError) (fun _ => O))
                       "fan.py" ["30"] 2 4 ltac:(lia) ltac:(lia) ltac:(lia))) as H.
  cbv zeta in H. exact (proj1 H).
Defined.

(** ** Negative numbers on the command line *)

Lemma int_digits_numeral (sign : Z) (d : uint) :
  d <> Nil ->
  int_digits sign (NilEmpty.string_of_uint d) = Some (sign * Z.of_uint d).
Proof.
  intros Hd. destruct (numeral_head d Hd) as (c & s & v & Hs & Hc).
  unfold int_digits. rewrite Hs, Hc, <- Hs.
  rewrite scan_digits_numeral by reflexivity.
  simpl Py.skip_spaces. cbv iota. rewrite uint_value_0. reflexivity.
Qed.

Lemma str_int_neg (p : positive) :
  Py.str_int (Z.neg p) = String "-" (NilEmpty.string_of_uint (Pos.to_uint p)).
Proof.
  unfold Py.str_int. simpl.
  pose proof (DecimalPos.Unsigned.to_uint_nonnil p) as Hp.
  destruct (Pos.to_uint p); [congruence | reflexivity ..].
Qed.

(** [int(str(z)) == z] for every integer. *)
Lemma int_str_int_Z (z : Z) : Py.int (Py.str_int z) = Some z.
Proof.
  destruct z as [|p|p].
  - reflexivity.
  - exact (int_str_int (N.pos p)).
  - rewrite str_int_neg, int_sign_cases. cbn [Py.skip_spaces Py.is_space].
    simpl. rewrite int_digits_numeral
      by apply DecimalPos.Unsigned.to_uint_nonnil.
    unfold Z.of_uint. rewrite DecimalPos.Unsigned.of_to. reflexivity.
Qed.

(** A negative number given as the node specification is not a node id
    that is then dropped: its minus sign is read as the dash of a range,
    parsing raises [ValueError], and [main] falls back to all five
    nodes. *)
Theorem negative_node_falls_back_to_all (prog : string) (rest : list string)
    (z : Z) :
  z < 0 ->
  let s := main_settings prog (Py.str_int z :: rest) in
  parse_node_range (Py.str_int z) = None /\
  set_nodes s = [1; 2; 3; 4; 5] /\
  invalid_spec_line (Py.str_int z) ∈ set_out s.
Proof.
  intros Hz s. destruct z as [|p|p]; try lia.
  assert (parse_node_range (Py.str_int (Z.neg p)) = None) as Hparse.
  { rewrite str_int_neg. unfold parse_node_range. simpl.
    destruct (Py.split "-" _) as [|q [|q' ps]]; reflexivity. }
  split_and!; [exact Hparse | |].
  - unfold s. rewrite main_settings_cons. unfold select_nodes.
    rewrite Hparse. reflexivity.
  - unfold s. rewrite main_settings_cons. unfold select_nodes.
    rewrite Hparse. simpl. apply list_elem_of_here.
Qed.

Lemma negative_node_falls_back_to_all_witness :
  set_nodes (main_settings "fan.py" ["-1"]) = [1; 2; 3; 4; 5].
Proof.
  exact (proj1 (proj2 (negative_node_falls_back_to_all "fan.py" [] (-1)
                         ltac:(lia)))).
Defined.

(** ** The thread pool: length of the runs, and the exact output *)

Section PoolRuns.

Local Open Scope list_scope.

Variable net : network.
Variable self : Fans.
Variable rate : Z.
Variable n : nat.
Variable p0 : process.

(** A pool at rest has made all of its [4 * n] steps. *)
Lemma final_progress (order : list nat) (st : pool_state) :
  pool_inv net self rate n p0 order st -> enabled n st = [] ->
  pool_progress (snd st) = (4 * n)%nat.
Proof.
  intros HI Hnone.
  destruct (inv_final net self rate n p0 order st HI Hnone) as [_ Hall].
  pose proof (inv_bound _ _ _ _ _ _ _ HI) as Hb.
  assert (length (futures (snd st)) = n) as Hlen.
  { destruct n as [|m]; [lia|].
    destruct (Hall m) as [_ [res Hres]]; [lia|].
    apply lookup_lt_Some in Hres. lia. }
  assert (sum_list (map future_weight (futures (snd st))) = (n * 2)%nat) as Hsum.
  { rewrite <- Hlen. apply (sum_list_fmap_same 2).
    apply Forall_forall. intros f Hf.
    apply list_elem_of_lookup in Hf as [i Hi].
    destruct (Hall i) as [_ [res Hres]].
    - apply lookup_lt_Some in Hi. lia.
    - rewrite Hres in Hi. injection Hi as <-. reflexivity. }
  assert (yielded (snd st) ≡ₚ seq 0 n) as Hy.
  { apply NoDup_Permutation.
    - exact (inv_yielded_nodup _ _ _ _ _ _ _ HI).
    - apply NoDup_seq.
    - intros i. rewrite elem_of_seq. split.
      + intros Hi. destruct (inv_yielded _ _ _ _ _ _ _ HI i Hi) as [_ [res Hres]].
        apply lookup_lt_Some in Hres. lia.
      + intros Hi. apply Hall. lia. }
  unfold pool_progress. rewrite Hsum, Hlen, Hy, length_seq. lia.
Qed.

(** The number of steps made is the progress of the state reached. *)
Lemma nsteps_progress (k : nat) (st : pool_state) :
  nsteps (pool_step net self rate n) k (p0, Pool [] []) st ->
  pool_progress (snd st) = k.
Proof.
  revert st. induction k as [|k IH]; intros st Hsteps.
  - inversion Hsteps; subst. reflexivity.
  - apply nsteps_inv_r in Hsteps as (st1 & Hsteps & a & Ha & ->).
    rewrite (progress_step net self rate n st1 a Ha), (IH st1 Hsteps).
    reflexivity.
Qed.

End PoolRuns.

(** Every interleaving of the pool of [n] tasks is finite: a state reached
    in [k] steps has [k <= 4 * n]; the pool is at rest there exactly when
    [k = 4 * n], so no run stops early and none goes on. *)
Theorem pool_runs_take_4n_steps (net : network) (self : Fans) (rate : Z)
    (n : nat) (p : process) (k : nat) (st : pool_state) :
  nsteps (pool_step net self rate n) k (p, Pool [] []) st ->
  (k <= 4 * n)%nat /\ (enabled n st = [] <-> k = (4 * n)%nat).
Proof.
  intros Hsteps.
  pose proof (nsteps_progress net self rate n p k st Hsteps) as Hk.
  destruct (inv_reachable net self rate n p st (rtc_nsteps_2 _ _ _ Hsteps))
    as [order HI].
  pose proof (progress_bound net self rate n p order st HI) as Hb.
  split; [lia|]. split.
  - intros Hnone. rewrite <- Hk. eapply final_progress; eassumption.
  - intros ->. destruct (enabled n st) as [|a acts] eqn:Hen; [reflexivity|].
    assert (a ∈ enabled n st) as Ha by (rewrite Hen; apply list_elem_of_here).
    destruct (inv_step net self rate n p order st a HI Ha) as [order' HI'].
    pose proof (progress_bound net self rate n p order' _ HI') as Hb'.
    rewrite (progress_step net self rate n st a Ha) in Hb'. lia.
Qed.

Lemma pool_runs_take_4n_steps_witness :
  (1 <= 4 * 3)%nat.
Proof.
  refine (proj1 (pool_runs_take_4n_steps echo_network
                   (Build_Fans "10.0.0.1" "admin" "admin") 30 3 initial_process
                   1 _ _)).
  apply nsteps_once. exists Submit. split; [|reflexivity].
  vm_compute. apply list_elem_of_here.
Defined.

Section PoolLines.

Local Open Scope list_scope.

Variable net : network.
Variable self : Fans.
Variable rate : Z.
Variable n : nat.
Variable p0 : process.

Notation "'due'" := (due_line net self rate (Fans_headers p0) (wire p0)).
Notation "'PInv'" := (pool_inv net self rate n p0).
Notation "'LInv'" := (lines_inv net self rate p0).

Ltac same_lines :=
  match goal with
  | |- omap id ?a ≡ₚ omap id ?b => replace b with a; [reflexivity|]
  | |- omap id ?a ≡ₚ omap id ?b ++ [] =>
      rewrite app_nil_r; replace b with a; [reflexivity|]
  end.

Lemma omap_id_insert {A} (l : list (option A)) (k : nat) (y : A) :
  l !! k = Some None ->
  omap id (<[k := Some y]> l) ≡ₚ omap id l ++ [y].
Proof.
  intros Hk.
  rewrite insert_take_drop by (eapply lookup_lt_Some; eassumption).
  replace (omap id l) with (omap id (take k l ++ None :: drop (S k) l))
    by (f_equal; apply take_drop_middle; assumption).
  rewrite !omap_app. simpl.
  rewrite <- Permutation_middle. apply Permutation_cons_append.
Qed.

(** Setting one entry of the lines due, the others being as before. *)
Lemma imap_due_insert (order : list nat) (pl pl' : pool) (k0 i0 : nat)
    (v : option string) :
  NoDup order -> order !! k0 = Some i0 ->
  due order pl' k0 i0 = v ->
  (forall k i, order !! k = Some i -> i <> i0 ->
     due order pl' k i = due order pl k i) ->
  imap (due order pl') order = <[k0 := v]> (imap (due order pl) order).
Proof.
  intros Hnd Hk0 Hv Hother. apply list_eq. intros k.
  rewrite list_lookup_insert, !list_lookup_imap, length_imap.
  destruct (decide (k0 = k /\ (k0 < length order)%nat)) as [[<- _]|Hne].
  - rewrite Hk0. simpl. congruence.
  - destruct (order !! k) as [i|] eqn:Hk; [|reflexivity]. simpl. f_equal.
    apply Hother; [assumption|]. intros ->.
    apply Hne. split; [|eapply lookup_lt_Some; eassumption].
    eapply NoDup_lookup; eassumption.
Qed.

Lemma lines_init : LInv [] (p0, Pool [] []).
Proof. exists []. split; [by rewrite app_nil_r | reflexivity]. Qed.

Lemma lines_submit (order : list nat) (st : pool_state) :
  PInv order st -> LInv order st ->
  LInv order (do_action net self rate Submit st).
Proof.
  intros HI (L & Hout & HL). destruct st as [p [fs ys]]; simpl in *.
  exists L. split; [assumption|]. rewrite HL. same_lines.
  apply imap_ext. intros k i Hk. unfold due_line. simpl.
  assert (i ∈ order) as Hi by (eapply list_elem_of_lookup_2; eassumption).
  apply (inv_order _ _ _ _ _ _ _ HI) in Hi as (f & Hf & _). simpl in Hf.
  rewrite (lookup_app_l_Some _ _ _ _ Hf), Hf. reflexivity.
Qed.

Lemma lines_send (order : list nat) (st : pool_state) (i0 : nat) :
  PInv order st -> LInv order st -> futures (snd st) !! i0 = Some Queued ->
  LInv (order ++ [i0]) (do_action net self rate (Send i0) st).
Proof.
  intros HI (L & Hout & HL) Hq. destruct st as [p [fs ys]]; simpl in *.
  rewrite Hq. exists L. split; [assumption|]. rewrite HL.
  assert (i0 ∉ order) as Hfresh.
  { intros (f & H & Hne)%(inv_order _ _ _ _ _ _ _ HI). simpl in H. congruence. }
  assert (i0 < length fs)%nat as Hlt by (eapply lookup_lt_Some; eassumption).
  rewrite imap_app, omap_app.
  match goal with |- _ ≡ₚ _ ++ ?t => assert (t = []) as -> end.
  { simpl. unfold due_line. simpl.
    rewrite list_lookup_insert_eq by assumption. reflexivity. }
  same_lines. apply imap_ext. intros k i Hk. unfold due_line. simpl.
  assert (i <> i0) as Hne.
  { intros ->. apply Hfresh. eapply list_elem_of_lookup_2. eassumption. }
  rewrite list_lookup_insert_ne by congruence.
  rewrite (fan_outcome_app net self rate p0 order [i0] k i)
    by (apply lookup_lt_Some in Hk; lia).
  reflexivity.
Qed.

Lemma lines_finish (order : list nat) (st : pool_state) (i0 : nat)
    (r : result response) :
  PInv order st -> LInv order st ->
  futures (snd st) !! i0 = Some (Running r) ->
  LInv order (do_action net self rate (Finish i0) st).
Proof.
  intros HI (L & Hout & HL) Hrun.
  pose proof (inv_order_nodup _ _ _ _ _ _ _ HI) as Hnd.
  destruct (inv_running _ _ _ _ _ _ _ HI i0 r Hrun) as (k0 & Hk0 & Hr).
  assert (i0 ∉ yielded (snd st)) as Hny.
  { intros Hi. destruct (inv_yielded _ _ _ _ _ _ _ HI i0 Hi) as [_ [res Hres]].
    congruence. }
  destruct st as [p [fs ys]]; simpl in *. rewrite Hrun.
  assert (i0 < length fs)%nat as Hlt by (eapply lookup_lt_Some; eassumption).
  assert (due order (Pool fs ys) k0 i0 = None) as Hold.
  { unfold due_line. simpl. rewrite Hrun. reflexivity. }
  assert (forall res k i, order !! k = Some i -> i <> i0 ->
            due order (Pool (<[i0 := Finished res]> fs) ys) k i =
            due order (Pool fs ys) k i) as Hother.
  { intros res k i Hk Hne. unfold due_line. simpl.
    rewrite list_lookup_insert_ne by congruence. reflexivity. }
  destruct (fan_report i0 r) as [line|e] eqn:Hrep.
  - exists (L ++ [line]). simpl. split; [rewrite Hout, app_assoc; reflexivity|].
    rewrite (imap_due_insert order (Pool fs ys) _ k0 i0 (Some line) Hnd Hk0).
    + rewrite omap_id_insert, HL; [reflexivity|].
      rewrite list_lookup_imap, Hk0. simpl. rewrite Hold. reflexivity.
    + unfold due_line. simpl. rewrite list_lookup_insert_eq by assumption.
      rewrite <- Hr, Hrep. reflexivity.
    + apply Hother.
  - exists L. split; [assumption|]. rewrite HL. same_lines.
    apply imap_ext. intros k i Hk.
    destruct (decide (i = i0)) as [->|Hne].
    + assert (k = k0) as -> by (eapply NoDup_lookup; eassumption).
      rewrite Hold. unfold due_line. simpl.
      rewrite list_lookup_insert_eq by assumption.
      rewrite <- Hr, Hrep. rewrite bool_decide_eq_false_2 by assumption.
      reflexivity.
    + symmetry. apply Hother; assumption.
Qed.

Lemma lines_collect (order : list nat) (st : pool_state) (i0 : nat)
    (res : result Z) :
  PInv order st -> LInv order st ->
  futures (snd st) !! i0 = Some (Finished res) ->
  i0 ∉ yielded (snd st) ->
  LInv order (do_action net self rate (Collect i0) st).
Proof.
  intros HI (L & Hout & HL) Hfin Hny.
  pose proof (inv_order_nodup _ _ _ _ _ _ _ HI) as Hnd.
  destruct (inv_finished _ _ _ _ _ _ _ HI i0 res Hfin) as (k0 & Hk0 & Hrep).
  destruct st as [p [fs ys]]; simpl in *. rewrite Hfin.
  assert (forall k i, order !! k = Some i -> i <> i0 ->
            due order (Pool fs (ys ++ [i0])) k i =
            due order (Pool fs ys) k i) as Hother.
  { intros k i Hk Hne. unfold due_line. simpl.
    destruct (fs !! i) as [[| |?]|]; try reflexivity.
    destruct (fan_report i _); [reflexivity|].
    assert (i ∈ ys ++ [i0] <-> i ∈ ys) as Hiff.
    { rewrite elem_of_app, list_elem_of_singleton. tauto. }
    destruct (decide (i ∈ ys)) as [Hi|Hi].
    - rewrite !bool_decide_eq_true_2 by tauto. reflexivity.
    - rewrite !bool_decide_eq_false_2 by tauto. reflexivity. }
  destruct (fan_report i0
              (fan_outcome net self rate (Fans_headers p0) (wire p0) order k0 i0))
    as [line|e] eqn:Hreport.
  - destruct Hrep as [-> _]. exists L. split; [assumption|].
    rewrite HL. same_lines. apply imap_ext. intros k i Hk.
    destruct (decide (i = i0)) as [->|Hne].
    + assert (k = k0) as -> by (eapply NoDup_lookup; eassumption).
      unfold due_line. simpl. rewrite Hfin, Hreport. reflexivity.
    + symmetry. apply Hother; assumption.
  - destruct Hrep as [-> _].
    exists (L ++ [fan_error_line e]). simpl.
    split; [rewrite Hout, app_assoc; reflexivity|].
    rewrite (imap_due_insert order (Pool fs ys) _ k0 i0
               (Some (fan_error_line e)) Hnd Hk0).
    + rewrite omap_id_insert, HL; [reflexivity|].
      rewrite list_lookup_imap, Hk0. simpl. unfold due_line. simpl.
      rewrite Hfin, Hreport, bool_decide_eq_false_2 by assumption.
      reflexivity.
    + unfold due_line. simpl. rewrite Hfin, Hreport.
      rewrite bool_decide_eq_true_2; [reflexivity|].
      apply elem_of_app. right. apply list_elem_of_here.
    + apply Hother.
Qed.

Lemma lines_step (order : list nat) (st : pool_state) (a : action) :
  PInv order st -> LInv order st -> a ∈ enabled n st ->
  exists order',
    PInv order' (do_action net self rate a st) /\
    LInv order' (do_action net self rate a st).
Proof.
  intros HI HL Ha. apply elem_of_enabled in Ha. destruct a as [|i|i|i].
  - exists order. split; [apply inv_submit | apply lines_submit]; assumption.
  - exists (order ++ [i]).
    split; [apply inv_send | apply lines_send]; assumption.
  - destruct Ha as [r Hr]. exists order.
    split; [eapply inv_finish | eapply lines_finish]; eassumption.
  - destruct Ha as ([res Hres] & Hlen & Hny). exists order.
    split; [eapply inv_collect | eapply lines_collect]; eassumption.
Qed.

Lemma lines_reachable (st : pool_state) :
  rtc (pool_step net self rate n) (p0, Pool [] []) st ->
  exists order, PInv order st /\ LInv order st.
Proof.
  intros H. pattern st. revert st H. apply rtc_ind_r.
  - exists []. split; [apply inv_init | apply lines_init].
  - intros st st' _ (a & Ha & ->) (order & HI & HL).
    eapply lines_step; eassumption.
Qed.

(** At rest every line is due, so the output is the lines of the requests
    in some order. *)
Lemma lines_final (order : list nat) (st : pool_state) :
  PInv order st -> LInv order st -> enabled n st = [] ->
  exists L,
    stdout (fst st) = stdout p0 ++ L /\
    L ≡ₚ imap (fan_line net self rate (Fans_headers p0) (wire p0) order) order.
Proof.
  intros HI (L & Hout & HL) Hnone. exists L. split; [assumption|].
  rewrite HL.
  destruct (inv_final net self rate n p0 order st HI Hnone) as [Hperm Hall].
  replace (imap (due order (snd st)) order)
    with (Some <$> imap (fan_line net self rate (Fans_headers p0) (wire p0) order)
                     order).
  - clear. induction (imap _ order) as [|x l IH]; simpl; [reflexivity|].
    rewrite IH. reflexivity.
  - apply list_eq. intros k.
    rewrite list_lookup_fmap, !list_lookup_imap.
    destruct (order !! k) as [i|] eqn:Hk; [|reflexivity]. simpl. f_equal.
    assert (i < n)%nat as Hi.
    { assert (i ∈ seq 0 n) as H
        by (rewrite <- Hperm; eapply list_elem_of_lookup_2; eassumption).
      apply elem_of_seq in H. lia. }
    destruct (Hall i Hi) as [Hy [res Hres]].
    unfold due_line, fan_line. rewrite Hres.
    destruct (fan_report i _); [reflexivity|].
    rewrite bool_decide_eq_true_2 by assumption. reflexivity.
Qed.

End PoolLines.

Section ChangeFansOutput.

Local Open Scope list_scope.

Variable net : network.
Variable self : Fans.
Variable rate : Z.

(** What a pool at rest has sent and printed, with one order for both. *)
Lemma pool_final_lines (n : nat) (p : process) (st : pool_state) :
  rtc (pool_step net self rate n) (p, Pool [] []) st ->
  enabled n st = [] ->
  exists order L,
    order ≡ₚ seq 0 n /\
    Fans_headers (fst st) = Fans_headers p /\
    wire (fst st) = wire p ++ map (fan_request self rate (Fans_headers p)) order /\
    stdout (fst st) = stdout p ++ L /\
    L ≡ₚ imap (fan_line net self rate (Fans_headers p) (wire p) order) order.
Proof.
  intros Hreach Hnone.
  destruct (lines_reachable net self rate n p st Hreach) as (order & HI & HL).
  destruct (lines_final net self rate n p order st HI HL Hnone) as (L & Hout & HLp).
  exists order, L. split_and!; auto.
  - apply (inv_final net self rate n p order st HI Hnone).
  - apply (inv_headers _ _ _ _ _ _ _ HI).
  - apply (inv_wire _ _ _ _ _ _ _ HI).
Qed.

Lemma change_fans_lines (sched : nat -> nat) (fans : Z) (p : process) :
  let p' := snd (change_fans net sched self rate fans p) in
  exists order L,
    order ≡ₚ seq 0 (Z.to_nat fans) /\
    Fans_headers p' = Fans_headers p /\
    wire p' = wire p ++ map (fan_request self rate (Fans_headers p)) order /\
    stdout p' = stdout p ++ L /\
    L ≡ₚ imap (fan_line net self rate (Fans_headers p) (wire p) order) order.
Proof.
  intros p'. unfold p', change_fans.
  destruct (decide (fans <= 0)) as [Hle|Hpos].
  - rewrite bool_decide_eq_true_2 by assumption. exists [], [].
    replace (Z.to_nat fans) with 0%nat by lia. simpl.
    rewrite !app_nil_r. split_and!; reflexivity.
  - rewrite bool_decide_eq_false_2 by assumption. cbn [snd].
    set (n := Z.to_nat fans).
    apply pool_final_lines.
    + apply run_pool_reachable.
    + apply (run_pool_final net self rate n p sched (4 * n) 0 []).
      * apply inv_init.
      * simpl. lia.
Qed.

(** [change_fans] prints exactly one line per fan and nothing else: what
    it adds to the output is, in some order, the line of each of its
    requests, the task's report or the line for the exception the task
    raised; the same holds of every interleaving of the pool at rest. *)
Theorem change_fans_prints_one_line_per_fan (sched : nat -> nat) (fans : Z)
    (p : process) :
  let n := Z.to_nat fans in
  let exact := fun (q : process) =>
    exists order L,
      order ≡ₚ seq 0 n /\
      wire q = wire p ++ map (fan_request self rate (Fans_headers p)) order /\
      stdout q = stdout p ++ L /\
      L ≡ₚ imap (fan_line net self rate (Fans_headers p) (wire p) order) order /\
      length L = n in
  exact (snd (change_fans net sched self rate fans p)) /\
  (forall st,
     rtc (pool_step net self rate n) (p, Pool [] []) st ->
     enabled n st = [] -> exact (fst st)).
Proof.
  intros n exact.
  assert (forall q,
    (exists order L,
       order ≡ₚ seq 0 n /\
       Fans_headers q = Fans_headers p /\
       wire q = wire p ++ map (fan_request self rate (Fans_headers p)) order /\
       stdout q = stdout p ++ L /\
       L ≡ₚ imap (fan_line net self rate (Fans_headers p) (wire p) order) order) ->
    exact q) as Hexact.
  { intros q (order & L & Hperm & _ & Hwire & Hout & HL).
    exists order, L. split_and!; auto.
    rewrite HL, length_imap, Hperm, length_seq. reflexivity. }
  split.
  - apply Hexact, change_fans_lines.
  - intros st Hreach Hnone. apply Hexact, pool_final_lines; assumption.
Qed.

(** When the replies of the BMC to the fan requests do not depend on what
    was sent before, the scheduling decides the order of the lines and of
    the requests and nothing else: the lines printed are those of the fans
    0 to [n - 1], and two runs under different schedulers print and send
    the same things up to order. *)
Theorem stateless_bmc_output_up_to_order (fans : Z) (p : process) :
  (forall h h' i,
     net h (fan_request self rate (Fans_headers p) i) =
     net h' (fan_request self rate (Fans_headers p) i)) ->
  (forall sched, exists L,
     stdout (snd (change_fans net sched self rate fans p)) = stdout p ++ L /\
     L ≡ₚ map (stateless_fan_line net self rate (Fans_headers p))
            (seq 0 (Z.to_nat fans))) /\
  (forall sched1 sched2,
     stdout (snd (change_fans net sched1 self rate fans p))
       ≡ₚ stdout (snd (change_fans net sched2 self rate fans p)) /\
     wire (snd (change_fans net sched1 self rate fans p))
       ≡ₚ wire (snd (change_fans net sched2 self rate fans p))).
Proof.
  intros Hstateless.
  assert (forall sched, exists L,
            stdout (snd (change_fans net sched self rate fans p)) = stdout p ++ L /\
            L ≡ₚ map (stateless_fan_line net self rate (Fans_headers p))
                   (seq 0 (Z.to_nat fans))) as Hlines.
  { intros sched.
    destruct (change_fans_lines sched fans p) as (order & L & Hperm & _ & _ & Hout & HL).
    exists L. split; [assumption|]. rewrite HL, <- Hperm.
    replace (imap (fan_line net self rate (Fans_headers p) (wire p) order) order)
      with (imap (const (stateless_fan_line net self rate (Fans_headers p))) order).
    - rewrite imap_const. reflexivity.
    - apply imap_ext. intros k i _.
      unfold const, stateless_fan_line, fan_line, fan_outcome.
      rewrite (Hstateless [] (fan_history self rate (Fans_headers p) (wire p) order k) i).
      reflexivity. }
  split; [exact Hlines|].
  intros sched1 sched2. split.
  - destruct (Hlines sched1) as (L1 & -> & H1).
    destruct (Hlines sched2) as (L2 & -> & H2).
    rewrite H1, H2. reflexivity.
  - destruct (change_fans_lines sched1 fans p) as (o1 & _ & Hp1 & _ & -> & _).
    destruct (change_fans_lines sched2 fans p) as (o2 & _ & Hp2 & _ & -> & _).
    rewrite Hp1, Hp2. reflexivity.
Qed.

(** When every reply to a fan request is a JSON object without a [duty]
    field, each task raises [KeyError], [change_fans] still returns, and
    its whole output is the line for that exception once per fan. *)
Theorem missing_duty_is_logged_per_fan (sched : nat -> nat) (fans : Z)
    (p : process) :
  (forall h i, exists resp d,
     net h (fan_request self rate (Fans_headers p) i) = Ok resp /\
     resp_json resp = BodyDict d /\ d !! "duty" = None) ->
  0 < fans ->
  fst (change_fans net sched self rate fans p) = Ok tt /\
  stdout (snd (change_fans net sched self rate fans p)) =
    stdout p
    ++ replicate (Z.to_nat fans) "An error occurred while changing fan: 'duty'"%string.
Proof.
  intros Hmissing Hfans. split.
  - destruct (change_fans_returns net self rate sched fans p Hfans)
      as (order & st & -> & _). reflexivity.
  - destruct (change_fans_lines sched fans p) as (order & L & Hperm & _ & _ & -> & HL).
    f_equal. symmetry. apply replicate_Permutation. rewrite HL.
    replace (imap (fan_line net self rate (Fans_headers p) (wire p) order) order)
      with (imap (const (fun _ : nat =>
                    "An error occurred while changing fan: 'duty'"%string)) order).
    + rewrite imap_const. clear HL.
      assert (length order = Z.to_nat fans) as <-
        by (rewrite Hperm; apply length_seq).
      clear Hperm. induction order as [|i order IH]; simpl; [reflexivity|]. rewrite IH.
      reflexivity.
    + apply imap_ext. intros k i _. unfold const, fan_line, fan_outcome.
      destruct (Hmissing (fan_history self rate (Fans_headers p) (wire p) order k) i)
        as (resp & d & -> & Hjson & Hd).
      unfold fan_report, json_item. rewrite Hjson, Hd. reflexivity.
Qed.

End ChangeFansOutput.

Lemma stateless_bmc_output_up_to_order_witness :
  stdout (snd (change_fans echo_network (fun k => k)
                 (Build_Fans "h" "admin" "admin") 30 3 initial_process))
    ≡ₚ stdout (snd (change_fans echo_network (fun k => (7 * k + 3)%nat)
                      (Build_Fans "h" "admin" "admin") 30 3 initial_process)).
Proof.
  exact (proj1 (proj2 (stateless_bmc_output_up_to_order echo_network
                         (Build_Fans "h" "admin" "admin") 30 3 initial_process
                         (fun _ _ _ => eq_refl))
                  (fun k => k) (fun k => (7 * k + 3)%nat))).
Defined.

Lemma missing_duty_is_logged_per_fan_witness :
  stdout (snd (change_fans empty_reply_network (fun k => k)
                 (Build_Fans "h" "admin" "admin") 30 2 initial_process)) =
    [ "An error occurred while changing fan: 'duty'";
      "An error occurred while changing fan: 'duty'" ].
Proof.
  apply (missing_duty_is_logged_per_fan empty_reply_network
           (Build_Fans "h" "admin" "admin") 30 (fun k => k) 2 initial_process).
  - intros h i. eexists. exists ∅. split_and!; reflexivity.
  - reflexivity.
Defined.

(** ** The session: the pattern, failed and repeated logins *)

(** The token [get_session] takes from a [Set-Cookie] header is what stands
    between the leftmost [QSESSIONID=] that a semicolon follows on the same
    line and that semicolon: it holds neither a semicolon nor a newline,
    and the pattern matches nowhere further left. *)
Theorem session_token_shape (cookie tok : string) :
  first_session_id cookie = Some tok ->
  Py.contains ";" tok = false /\ Py.contains "010" tok = false /\
  exists pre post,
    cookie = pre ++ "QSESSIONID=" ++ tok ++ ";" ++ post /\
    forall pre' rest',
      cookie = pre' ++ rest' ->
      (String.length pre' < String.length pre)%nat ->
      match_session_at rest' = None.
Proof.
  intros (pre & rest & -> & Hm & Hleft)%first_session_id_spec.
  apply match_session_at_spec in Hm as ([post ->] & Hsemi & Hnl).
  split_and!; [assumption | assumption |].
  exists pre, post. split; [reflexivity | exact Hleft].
Qed.

Lemma session_token_shape_witness :
  Py.contains ";" "abc123" = false /\ Py.contains "010" "abc123" = false.
Proof.
  destruct (session_token_shape "lang=en; QSESSIONID=abc123; Path=/" "abc123"
              eq_refl) as (H1 & H2 & _).
  split; assumption.
Defined.

Lemma lazy_until_semicolon_found (x post : string) :
  Py.contains "010" x = false ->
  is_Some (lazy_until_semicolon (x ++ ";" ++ post)).
Proof.
  induction x as [|c x IH]; simpl; app_simpl; intros Hnl.
  - simpl. eauto.
  - simpl. destruct (Ascii.eqb c ";"); [eauto|].
    apply orb_false_elim in Hnl as [Hc Hx]. rewrite Hc.
    destruct (IH Hx) as [t Ht]. rewrite Ht. simpl. eauto.
Qed.

(** The pattern finds a token in every header that holds [QSESSIONID=]
    followed, before the line ends, by a semicolon: such a reply never
    makes [get_session] raise [IndexError]. *)
Theorem session_token_found (pre x post : string) :
  Py.contains "010" x = false ->
  exists tok,
    first_session_id (pre ++ "QSESSIONID=" ++ x ++ ";" ++ post) = Some tok /\
    findall_first (pre ++ "QSESSIONID=" ++ x ++ ";" ++ post) = Ok tok.
Proof.
  intros Hnl.
  assert (is_Some (first_session_id
                     (pre ++ "QSESSIONID=" ++ x ++ ";" ++ post))) as [tok Htok].
  { apply first_session_id_suffix.
    destruct (lazy_until_semicolon_found x post Hnl) as [t Ht].
    exists t. apply first_session_id_here. unfold match_session_at.
    rewrite (proj2 (strip_prefix_spec "QSESSIONID=" _ _) eq_refl). exact Ht. }
  exists tok. split; [assumption|]. unfold findall_first. rewrite Htok.
  reflexivity.
Qed.

Lemma session_token_found_witness :
  exists tok, first_session_id "a=1; QSESSIONID=x;y; b=2" = Some tok.
Proof.
  destruct (session_token_found "a=1; " "x;y" " b=2" eq_refl) as (tok & H & _).
  exists tok. exact H.
Defined.

Section SessionState.

Variable net : network.

(** A [get_session] that raises, for whatever reason, has sent its request
    and leaves the header map with the form content type of line 29 and
    otherwise as it was: the content type is not put back, and neither the
    cookie nor the CSRF token is written. *)
Theorem failed_get_session_keeps_form_content_type (self : Fans) (rs : pyval)
    (p p' : process) (e : exn) :
  get_session net self rs p = (Raise e, p') ->
  Fans_headers p' = <["content-type" := form_content_type]> (Fans_headers p) /\
  Fans_headers p' !! "content-type" = Some form_content_type /\
  Fans_headers p' !! "Cookie" = Fans_headers p !! "Cookie" /\
  Fans_headers p' !! "X-Csrftoken" = Fans_headers p !! "X-Csrftoken" /\
  wire p' = (wire p ++ [session_request self rs (Fans_headers p)])%list /\
  stdout p' = stdout p.
Proof.
  intros H. rewrite get_session_eq in H. cbv zeta in H.
  assert (p' = Process (<["content-type" := form_content_type]> (Fans_headers p))
                 (wire p ++ [session_request self rs (Fans_headers p)])
                 (stdout p)) as ->.
  { destruct (net _ _) as [resp|e1]; [|congruence].
    destruct (set_cookie_header resp) as [cookie|e2]; [|congruence].
    destruct (findall_first cookie) as [tok|e3]; [|congruence].
    destruct (json_item resp "CSRFToken") as [csrf|e4]; congruence. }
  cbn [Fans_headers wire stdout]. split_and!; try reflexivity.
  - apply lookup_insert_eq.
  - apply lookup_insert_ne. discriminate.
  - apply lookup_insert_ne. discriminate.
Qed.

(** A [get_session] that returns has got a reply with a cookie in which
    the pattern matches and with a CSRF token, and has left the headers
    built from these two. *)
Lemma get_session_returns (self : Fans) (rs : pyval) (p p' : process) :
  get_session net self rs p = (Ok tt, p') ->
  exists resp cookie tok csrf,
    net (wire p) (session_request self rs (Fans_headers p)) = Ok resp /\
    resp_set_cookie resp = Some cookie /\
    first_session_match cookie tok /\
    json_item resp "CSRFToken" = Ok csrf /\
    p' = Process (session_headers tok csrf (Fans_headers p))
           (wire p ++ [session_request self rs (Fans_headers p)])%list
           (stdout p).
Proof.
  intros H. rewrite get_session_eq in H. cbv zeta in H.
  destruct (net _ _) as [resp|?]; [|discriminate].
  unfold set_cookie_header, findall_first in H.
  destruct (resp_set_cookie resp) as [cookie|] eqn:Hcookie; [|discriminate].
  destruct (first_session_id cookie) as [tok|] eqn:Htok; [|discriminate].
  destruct (json_item resp "CSRFToken") as [csrf|?] eqn:Hcsrf; [|discriminate].
  injection H as <-. exists resp, cookie, tok, csrf.
  split; [reflexivity|]. split; [exact Hcookie|].
  split; [apply first_session_match_iff; exact Htok|].
  split; [exact Hcsrf | reflexivity].
Qed.

Lemma session_headers_twice (tok1 tok2 : string) (csrf1 csrf2 : pyval)
    (hdrs : gmap string pyval) :
  session_headers tok2 csrf2 (session_headers tok1 csrf1 hdrs) =
  session_headers tok2 csrf2 hdrs.
Proof.
  unfold session_headers. apply map_eq. intros key.
  destruct (decide (key = "content-type")) as [->|H1];
    [rewrite !lookup_insert_eq; reflexivity|].
  rewrite !(lookup_insert_ne _ "content-type") by congruence.
  destruct (decide (key = "Cookie")) as [->|H2];
    [rewrite !lookup_insert_eq; reflexivity|].
  rewrite !(lookup_insert_ne _ "Cookie") by congruence.
  destruct (decide (key = "X-Csrftoken")) as [->|H3];
    [rewrite !lookup_insert_eq; reflexivity|].
  rewrite !(lookup_insert_ne _ "X-Csrftoken") by congruence.
  rewrite !(lookup_insert_ne _ "content-type") by congruence.
  rewrite !(lookup_insert_ne _ "Cookie") by congruence.
  rewrite !(lookup_insert_ne _ "X-Csrftoken") by congruence.
  rewrite !(lookup_insert_ne _ "content-type") by congruence.
  reflexivity.
Qed.

(** A second successful [get_session] in the same process overwrites the
    first.  With [tok1], [csrf1] the token and CSRF field of the reply to
    the first session request and [tok2], [csrf2] those of the reply to the
    second: the second request goes out with the first session's cookie
    and CSRF token, and afterwards the header map is the one the second
    login alone would have left, its [Cookie] built from [tok2] and its
    [X-Csrftoken] equal to [csrf2]; nothing of the first session is
    kept. *)
Theorem later_session_replaces_earlier (f1 f2 : Fans) (rs1 rs2 : pyval)
    (p p1 p2 : process) :
  get_session net f1 rs1 p = (Ok tt, p1) ->
  get_session net f2 rs2 p1 = (Ok tt, p2) ->
  exists resp1 cookie1 tok1 csrf1 resp2 cookie2 tok2 csrf2,
    let q1 := session_request f1 rs1 (Fans_headers p) in
    let h1 := session_headers tok1 csrf1 (Fans_headers p) in
    let q2 := session_request f2 rs2 h1 in
    net (wire p) q1 = Ok resp1 /\
    resp_set_cookie resp1 = Some cookie1 /\
    first_session_match cookie1 tok1 /\
    json_item resp1 "CSRFToken" = Ok csrf1 /\
    Fans_headers p1 = h1 /\
    net (wire p ++ [q1])%list q2 = Ok resp2 /\
    resp_set_cookie resp2 = Some cookie2 /\
    first_session_match cookie2 tok2 /\
    json_item resp2 "CSRFToken" = Ok csrf2 /\
    req_headers q2 !! "Cookie" =
      Some (PStr ("lang=zh-cn;QSESSIONID=" ++ tok1 ++ "; refresh_disable=1")) /\
    req_headers q2 !! "X-Csrftoken" = Some csrf1 /\
    Fans_headers p2 = session_headers tok2 csrf2 (Fans_headers p) /\
    Fans_headers p2 !! "Cookie" =
      Some (PStr ("lang=zh-cn;QSESSIONID=" ++ tok2 ++ "; refresh_disable=1")) /\
    Fans_headers p2 !! "X-Csrftoken" = Some csrf2 /\
    wire p2 = (wire p ++ [q1; q2])%list.
Proof.
  intros H1 H2.
  destruct (get_session_returns f1 rs1 p p1 H1)
    as (resp1 & cookie1 & tok1 & csrf1 & Hn1 & Hc1 & Ht1 & Hx1 & ->).
  destruct (get_session_returns f2 rs2 _ p2 H2)
    as (resp2 & cookie2 & tok2 & csrf2 & Hn2 & Hc2 & Ht2 & Hx2 & ->).
  cbn [Fans_headers wire stdout] in *.
  exists resp1, cookie1, tok1, csrf1, resp2, cookie2, tok2, csrf2. cbv zeta.
  destruct (session_headers_lookup tok1 csrf1 (Fans_headers p))
    as (Hk1 & Hy1 & _ & _).
  destruct (session_headers_lookup tok2 csrf2 (Fans_headers p))
    as (Hk2 & Hy2 & _ & _).
  rewrite session_headers_twice.
  split_and!; try assumption; try reflexivity.
  - unfold session_request. cbn [req_headers].
    rewrite lookup_insert_ne by discriminate. exact Hk1.
  - unfold session_request. cbn [req_headers].
    rewrite lookup_insert_ne by discriminate. exact Hy1.
  - rewrite <- app_assoc. reflexivity.
Qed.

End SessionState.

Lemma failed_get_session_keeps_form_content_type_witness :
  Fans_headers
    (snd (get_session empty_reply_network (Build_Fans "h" "admin" "admin")
            (PStr "r") initial_process)) !! "content-type" =
  Some form_content_type.
Proof.
  refine (proj1 (proj2 (failed_get_session_keeps_form_content_type
                          empty_reply_network (Build_Fans "h" "admin" "admin")
                          (PStr "r") initial_process _ (KeyError "set-cookie") _))).
  vm_compute. reflexivity.
Defined.

Lemma later_session_replaces_earlier_witness :
  let f := Build_Fans "h" "admin" "admin" in
  let p1 := snd (get_session counting_network f (PStr "r") initial_process) in
  let p2 := snd (get_session counting_network f (PStr "r") p1) in
  Fans_headers p1 !! "Cookie" =
    Some (PStr "lang=zh-cn;QSESSIONID=s0; refresh_disable=1") /\
  Fans_headers p2 !! "Cookie" =
    Some (PStr "lang=zh-cn;QSESSIONID=s1; refresh_disable=1") /\
  Fans_headers p2 !! "X-Csrftoken" = Some (PStr "c1").
Proof.
  intros f p1 p2.
  destruct (later_session_replaces_earlier counting_network f f
              (PStr "r") (PStr "r") initial_process p1 p2
              ltac:(vm_compute; reflexivity) ltac:(vm_compute; reflexivity))
    as (resp1 & cookie1 & tok1 & csrf1 & resp2 & cookie2 & tok2 & csrf2 & H).
  cbv zeta in H.
  destruct H as (_ & _ & _ & _ & _ & Hn2 & Hc2 & Ht2 & Hx2 & _ & _ & _
                 & Hcookie & Hcsrf & _).
  split; [vm_compute; reflexivity|].
  rewrite Hcookie, Hcsrf.
  unfold counting_network in Hn2. rewrite length_app in Hn2.
  injection Hn2 as <-.
  injection Hc2 as <-. injection Hx2 as <-.
  apply first_session_match_iff in Ht2. injection Ht2 as <-.
  split; reflexivity.
Defined.

(** ** The workers: what they send and print *)

Section Workers.

Local Open Scope list_scope.

Variable net : network.

(** A login that completes, step by step: each reply, and the state it
    leaves. *)
Lemma node_login_mode_ok (self : Fans) (mode : string) (p p3 : process) :
  node_login_mode net self mode p = (Ok tt, p3) ->
  exists r1 rs resp cookie tok csrf mresp,
    let q1 := random_request self (Fans_headers p) in
    let q2 := session_request self rs (Fans_headers p) in
    let h2 := session_headers tok csrf (Fans_headers p) in
    let q3 := mode_request self mode h2 in
    net (wire p) q1 = Ok r1 /\ json_item r1 "random" = Ok rs /\
    net (wire p ++ [q1]) q2 = Ok resp /\
    resp_set_cookie resp = Some cookie /\
    first_session_id cookie = Some tok /\
    json_item resp "CSRFToken" = Ok csrf /\
    net (wire p ++ [q1; q2]) q3 = Ok mresp /\
    p3 = Process h2 (wire p ++ [q1; q2; q3])
           (stdout p ++ ["response: " ++ resp_text mresp]%string).
Proof.
  intros H. unfold node_login_mode, bind in H.
  rewrite get_random_eq in H. cbv zeta in H.
  destruct (net (wire p) (random_request self (Fans_headers p)))
    as [r1|?] eqn:H1; [|discriminate].
  destruct (json_item r1 "random") as [rs|?] eqn:Hrs; [|discriminate].
  rewrite get_session_eq in H. cbv zeta in H.
  cbn [Fans_headers wire stdout] in H.
  destruct (net (wire p ++ [random_request self (Fans_headers p)])
              (session_request self rs (Fans_headers p)))
    as [resp|?] eqn:H2; [|discriminate].
  unfold set_cookie_header, findall_first in H.
  destruct (resp_set_cookie resp) as [cookie|] eqn:Hcookie; [|discriminate].
  destruct (first_session_id cookie) as [tok|] eqn:Htok; [|discriminate].
  destruct (json_item resp "CSRFToken") as [csrf|?] eqn:Hcsrf; [|discriminate].
  rewrite fans_mode_eq in H. cbv zeta in H.
  cbn [Fans_headers wire stdout] in H.
  rewrite <- app_assoc in H. cbn [app] in H.
  destruct (net (wire p ++ [random_request self (Fans_headers p);
                            session_request self rs (Fans_headers p)])
              (mode_request self mode
                 (session_headers tok csrf (Fans_headers p))))
    as [mresp|?] eqn:H3; [|discriminate].
  injection H as <-.
  exists r1, rs, resp, cookie, tok, csrf, mresp. cbv zeta.
  split_and!; try assumption.
  rewrite <- app_assoc. reflexivity.
Qed.

(** A login in any case: at most three requests, all of them login
    requests; a line is printed only when the mode call returns. *)
Lemma node_login_mode_cases (self : Fans) (mode : string) (p : process) :
  exists new,
    wire (snd (node_login_mode net self mode p)) = wire p ++ new /\
    Forall (login_request self mode) new /\
    match fst (node_login_mode net self mode p) with
    | Ok _ =>
        length new = 3%nat /\
        exists resp,
          stdout (snd (node_login_mode net self mode p)) =
            stdout p ++ ["response: " ++ resp_text resp]%string
    | Raise _ =>
        (1 <= length new <= 3)%nat /\
        stdout (snd (node_login_mode net self mode p)) = stdout p
    end.
Proof.
  assert (forall h, login_request self mode (random_request self h)) as Hq1
    by (intros h; left; eauto).
  assert (forall rs h, login_request self mode (session_request self rs h)) as Hq2
    by (intros rs h; right; left; eauto).
  assert (forall h, login_request self mode (mode_request self mode h)) as Hq3
    by (intros h; right; right; eauto).
  set (q1 := random_request self (Fans_headers p)).
  assert (Forall (login_request self mode) [q1]) as F1
    by (apply Forall_cons_2; [apply Hq1 | apply Forall_nil_2]).
  unfold node_login_mode, bind. rewrite get_random_eq. cbv zeta. fold q1.
  destruct (net (wire p) q1) as [r1|?]; cbn [fst snd wire stdout];
    [|exists [q1]; split; [reflexivity | split; [exact F1 | split; [simpl; lia | reflexivity]]]].
  destruct (json_item r1 "random") as [rs|?]; cbn [fst snd wire stdout];
    [|exists [q1]; split; [reflexivity | split; [exact F1 | split; [simpl; lia | reflexivity]]]].
  set (q2 := session_request self rs (Fans_headers p)).
  assert (Forall (login_request self mode) [q1; q2]) as F2
    by (repeat apply Forall_cons_2; [apply Hq1 | apply Hq2 | apply Forall_nil_2]).
  pose proof (get_session_wire net self rs
                (Process (Fans_headers p) (wire p ++ [q1]) (stdout p)))
    as [Hw2 Hs2].
  cbn [Fans_headers wire stdout] in Hw2, Hs2. fold q2 in Hw2.
  rewrite <- app_assoc in Hw2. cbn [app] in Hw2.
  destruct (get_session net self rs _) as [[[]|?] p2]; cbn [fst snd] in *;
    [|exists [q1; q2]; split; [exact Hw2 | split; [exact F2 | split; [simpl; lia | exact Hs2]]]].
  rewrite fans_mode_eq. cbv zeta.
  set (q3 := mode_request self mode (Fans_headers p2)).
  assert (Forall (login_request self mode) [q1; q2; q3]) as F3
    by (repeat apply Forall_cons_2;
        [apply Hq1 | apply Hq2 | apply Hq3 | apply Forall_nil_2]).
  destruct (net (wire p2) q3) as [mresp|?]; cbn [fst snd wire stdout];
    exists [q1; q2; q3]; rewrite Hw2, Hs2, <- app_assoc; cbn [app];
    (split; [reflexivity | split; [exact F3 | split]]).
  - reflexivity.
  - eauto.
  - simpl. lia.
  - reflexivity.
Qed.

Lemma control_fan_via_login (sched : nat -> nat)
    (host username password : string) (rate fans : Z) (p : process) :
  let self := Build_Fans host username password in
  control_fan net sched host username password rate fans p =
    match node_login_mode net self "manual" p with
    | (Raise e, p3) => (Raise e, p3)
    | (Ok _, p3) =>
        match change_fans net sched self rate fans p3 with
        | (Raise e, p4) => (Raise e, p4)
        | (Ok _, p4) =>
            (Ok tt,
             Process (Fans_headers p4) (wire p4)
               (stdout p4 ++ ["Completed fan control for node " ++ host]%string))
        end
    end.
Proof. exact (control_fan_eq net sched host username password rate fans p). Qed.

Lemma control_fan_mode_via_login (host username password mode : string)
    (p : process) :
  let self := Build_Fans host username password in
  control_fan_mode net host username password mode p =
    match node_login_mode net self mode p with
    | (Raise e, p3) => (Raise e, p3)
    | (Ok _, p3) =>
        (Ok tt,
         Process (Fans_headers p3) (wire p3)
           (stdout p3 ++ ["Completed fan control for node " ++ host ++ " in "
                          ++ mode ++ " mode"]%string))
    end.
Proof.
  intros self. unfold control_fan_mode, node_login_mode, bind. fold self.
  destruct (get_random net self p) as [[rs|e] p1]; [|reflexivity].
  destruct (get_session net self rs p1) as [[[]|e] p2]; [|reflexivity].
  destruct (fans_mode net self mode p2) as [[[]|e] p3]; reflexivity.
Qed.

End Workers.

Section WorkerTheorems.

Local Open Scope list_scope.

Variable net : network.

(** A login request is no fan request: the URLs differ. *)
Lemma login_request_not_fan (self : Fans) (mode : string) (rate : Z)
    (h : gmap string pyval) (i : nat) :
  login_request self mode (fan_request self rate h i) -> False.
Proof.
  intros [[h' H]|[(rs & h' & H)|[h' H]]];
    apply (f_equal req_url) in H; simpl in H;
    do 2 apply (inj (String.app _)) in H; app_simpl; discriminate.
Qed.

(** [control_fan_mode] logs in, sets the mode it is given and stops there.
    When it returns it has sent the challenge, the session and the mode
    request, in this order and nothing else, each built from the reply to
    the one before (the challenge of the first reply, the token and CSRF
    field of the second), and it has printed two lines: the text of the
    network's reply to the mode request, and its closing line, which names
    the host and the mode.  When it raises it has printed nothing and sent
    at most these three requests.  It never sends a fan duty. *)
Theorem control_fan_mode_sets_mode_only (host username password mode : string)
    (p : process) :
  let self := Build_Fans host username password in
  let r := control_fan_mode net host username password mode p in
  (fst r = Ok tt ->
   exists r1 rs resp cookie tok csrf mresp,
     let q1 := random_request self (Fans_headers p) in
     let q2 := session_request self rs (Fans_headers p) in
     let h2 := session_headers tok csrf (Fans_headers p) in
     let q3 := mode_request self mode h2 in
     net (wire p) q1 = Ok r1 /\ json_item r1 "random" = Ok rs /\
     net (wire p ++ [q1]) q2 = Ok resp /\
     resp_set_cookie resp = Some cookie /\
     first_session_match cookie tok /\
     json_item resp "CSRFToken" = Ok csrf /\
     net (wire p ++ [q1; q2]) q3 = Ok mresp /\
     wire (snd r) = wire p ++ [q1; q2; q3] /\
     Fans_headers (snd r) = h2 /\
     stdout (snd r) =
       stdout p ++ [("response: " ++ resp_text mresp)%string;
                    ("Completed fan control for node " ++ host ++ " in "
                     ++ mode ++ " mode")%string]) /\
  (forall e, fst r = Raise e ->
     stdout (snd r) = stdout p /\
     exists new,
       wire (snd r) = wire p ++ new /\ (1 <= length new <= 3)%nat /\
       Forall (login_request self mode) new /\
       Forall (fun q => forall h rate i, q <> fan_request self rate h i) new).
Proof.
  intros self r. unfold r. rewrite control_fan_mode_via_login. cbv zeta.
  fold self. split.
  - intros Hok.
    destruct (node_login_mode net self mode p) as [[[]|e] p3] eqn:Hlogin;
      [|discriminate].
    destruct (node_login_mode_ok net self mode p p3 Hlogin)
      as (r1 & rs & resp & cookie & tok & csrf & mresp & H).
    cbv zeta in H.
    destruct H as (H1 & Hrs & H2 & Hcookie & Htok & Hcsrf & H3 & ->).
    exists r1, rs, resp, cookie, tok, csrf, mresp. cbn.
    rewrite <- app_assoc.
    split_and!; try assumption; try reflexivity.
    apply first_session_match_iff. exact Htok.
  - intros e He.
    pose proof (node_login_mode_cases net self mode p) as (new & Hw & Hall & Hcase).
    destruct (node_login_mode net self mode p) as [[[]|e'] p3]; [discriminate|].
    cbn [fst snd] in *. destruct Hcase as [Hlen Hout].
    split; [assumption|]. exists new.
    split; [assumption|]. split; [assumption|]. split; [assumption|].
    eapply Forall_impl; [exact Hall|].
    intros q Hq h rate i ->. apply (login_request_not_fan self mode rate h i Hq).
Qed.

(** [control_fan] is [control_fan_mode] for the manual mode followed by the
    fan tasks: where the one raises the other raises the same exception in
    the same state, and where the one returns the other goes on from the
    same wire and headers to send one request per fan. *)
Theorem control_fan_extends_control_fan_mode (sched : nat -> nat)
    (host username password : string) (rate fans : Z) (p : process) :
  let self := Build_Fans host username password in
  let rm := control_fan_mode net host username password "manual" p in
  let rc := control_fan net sched host username password rate fans p in
  (forall e, fst rm = Raise e -> rc = rm) /\
  (fst rm = Ok tt ->
   exists order,
     order ≡ₚ seq 0 (Z.to_nat fans) /\
     wire (snd rc) =
       wire (snd rm)
       ++ map (fan_request self rate (Fans_headers (snd rm))) order /\
     (0 < fans -> fst rc = Ok tt)).
Proof.
  intros self rm rc. unfold rm, rc.
  rewrite control_fan_mode_via_login, control_fan_via_login. cbv zeta.
  fold self.
  destruct (node_login_mode net self "manual" p) as [[[]|e] p3]; cbn [fst snd].
  - split; [discriminate|]. intros _.
    destruct (change_fans_wire net sched self rate fans p3)
      as (order & Hperm & Hwire & Hok & _).
    exists order. cbn [wire Fans_headers].
    destruct (change_fans net sched self rate fans p3) as [[[]|e] p4];
      cbn [fst snd wire] in *; split_and!; auto.
  - split; [reflexivity | discriminate].
Qed.

Lemma control_fan_requests (sched : nat -> nat)
    (host username password : string) (rate fans : Z) (p : process) :
  let self := Build_Fans host username password in
  let r := control_fan net sched host username password rate fans p in
  exists new,
    wire (snd r) = wire p ++ new /\
    Forall (worker_request self rate) new /\
    (1 <= length new <= 3 + Z.to_nat fans)%nat /\
    (fst r = Ok tt -> length new = (3 + Z.to_nat fans)%nat).
Proof.
  intros self r. unfold r. rewrite control_fan_via_login. cbv zeta. fold self.
  pose proof (node_login_mode_cases net self "manual" p)
    as (new & Hw & Hall & Hcase).
  assert (Forall (worker_request self rate) new) as Hall'.
  { eapply Forall_impl; [exact Hall|].
    intros q [H|[H|H]]; unfold worker_request; tauto. }
  destruct (node_login_mode net self "manual" p) as [[[]|e] p3];
    cbn [fst snd] in *.
  - destruct Hcase as [Hlen _].
    destruct (change_fans_wire net sched self rate fans p3)
      as (order & Hperm & Hwire & _ & _).
    assert (length order = Z.to_nat fans) as Horder
      by (rewrite Hperm; apply length_seq).
    exists (new ++ map (fan_request self rate (Fans_headers p3)) order).
    assert (wire (snd (change_fans net sched self rate fans p3)) =
            wire p ++ new ++ map (fan_request self rate (Fans_headers p3)) order)
      as Hwire' by (rewrite Hwire, Hw, <- app_assoc; reflexivity).
    assert (Forall (worker_request self rate)
              (new ++ map (fan_request self rate (Fans_headers p3)) order)) as HF.
    { apply Forall_app. split; [assumption|].
      apply Forall_forall. intros q (i & -> & _)%list_elem_of_fmap.
      right. right. right. eauto. }
    destruct (change_fans net sched self rate fans p3) as [[[]|e] p4];
      cbn [fst snd wire] in *;
      (split; [exact Hwire' | split; [exact HF | split]]);
      rewrite ?length_app, ?length_map, ?Horder, ?Hlen; lia.
  - destruct Hcase as [Hlen _]. exists new.
    split; [assumption | split; [assumption | split; [lia | discriminate]]].
Qed.

Lemma worker_request_not_fan_info (self : Fans) (rate : Z) (q : request) :
  worker_request self rate q ->
  req_url q <> ("https://" ++ host self ++ "/api/status/fan_info")%string.
Proof.
  intros [[h ->]|[(rs & h & ->)|[[h ->]|(h & i & ->)]]]; simpl;
    intros H; do 2 apply (inj (String.app _)) in H; app_simpl;
    discriminate.
Qed.

(** Whatever the network does, [control_fan] sends nothing but the
    challenge, session, manual-mode and fan-duty requests of its node: at
    least one and at most three plus the number of fans, and exactly that
    many when it returns.  It never asks for the fan status (the call to
    [get_fans] of line 81 is commented out). *)
Theorem control_fan_sends_only_its_requests (sched : nat -> nat)
    (host username password : string) (rate fans : Z) (p : process) :
  let self := Build_Fans host username password in
  let r := control_fan net sched host username password rate fans p in
  exists new,
    wire (snd r) = wire p ++ new /\
    Forall (worker_request self rate) new /\
    Forall (fun q =>
              req_url q <> ("https://" ++ host ++ "/api/status/fan_info")%string)
      new /\
    (1 <= length new <= 3 + Z.to_nat fans)%nat /\
    (fst r = Ok tt -> length new = (3 + Z.to_nat fans)%nat).
Proof.
  intros self r.
  destruct (control_fan_requests sched host username password rate fans p)
    as (new & Hwire & Hall & Hlen & Hok).
  exists new. split; [exact Hwire | split; [exact Hall | split]].
  - eapply Forall_impl; [exact Hall|]. intros q Hq.
    exact (worker_request_not_fan_info self rate q Hq).
  - split; assumption.
Qed.

(** What a node worker prints.  When the login raises it prints nothing.
    When [control_fan] returns it has printed the text of the network's
    reply to the mode request, then exactly one line per fan, then its
    closing line, and nothing else.  The fan lines are, up to order, those
    of the requests sent: the fans went out in an order that is a
    permutation of 0..n-1, and the line of each is its report or the line
    for the exception its task raised. *)
Theorem control_fan_output (sched : nat -> nat)
    (host username password : string) (rate fans : Z) (p : process) :
  let self := Build_Fans host username password in
  let r := control_fan net sched host username password rate fans p in
  (forall e, fst (node_login net self p) = Raise e ->
     fst r = Raise e /\ stdout (snd r) = stdout p) /\
  (fst r = Ok tt ->
   exists rs tok csrf mresp order L,
     let q1 := random_request self (Fans_headers p) in
     let q2 := session_request self rs (Fans_headers p) in
     let h2 := session_headers tok csrf (Fans_headers p) in
     let q3 := mode_request self "manual" h2 in
     let w3 := wire p ++ [q1; q2; q3] in
     net (wire p ++ [q1; q2]) q3 = Ok mresp /\
     node_login net self p =
       (Ok tt,
        Process h2 w3 (stdout p ++ [("response: " ++ resp_text mresp)%string])) /\
     order ≡ₚ seq 0 (Z.to_nat fans) /\
     wire (snd r) = w3 ++ map (fan_request self rate h2) order /\
     stdout (snd r) =
       stdout p ++ [("response: " ++ resp_text mresp)%string] ++ L
       ++ [("Completed fan control for node " ++ host)%string] /\
     length L = Z.to_nat fans /\
     L ≡ₚ imap (fan_line net self rate h2 w3 order) order).
Proof.
  intros self r. unfold r. rewrite control_fan_via_login. cbv zeta. fold self.
  change (node_login net self p) with (node_login_mode net self "manual" p).
  split.
  - intros e He.
    pose proof (node_login_mode_cases net self "manual" p)
      as (new & _ & _ & Hcase).
    destruct (node_login_mode net self "manual" p) as [[[]|e'] p3];
      cbn [fst snd] in *; [discriminate|].
    injection He as ->. split; [reflexivity | apply Hcase].
  - intros Hok.
    destruct (node_login_mode net self "manual" p) as [[[]|e] p3] eqn:Hlogin;
      [|discriminate].
    destruct (node_login_mode_ok net self "manual" p p3 Hlogin)
      as (r1 & rs & resp & cookie & tok & csrf & mresp & H).
    cbv zeta in H. destruct H as (_ & _ & _ & _ & _ & _ & H3 & Hp3).
    destruct (change_fans_lines net self rate sched fans p3)
      as (order & L & Hperm & _ & Hwire & Hout & HL).
    exists rs, tok, csrf, mresp, order, L. cbv zeta.
    destruct (change_fans net sched self rate fans p3) as [[[]|e] p4];
      [|discriminate].
    cbn [fst snd stdout wire] in *. subst p3.
    cbn [stdout wire Fans_headers] in *. split_and!.
    + exact H3.
    + reflexivity.
    + exact Hperm.
    + exact Hwire.
    + rewrite Hout. rewrite <- !app_assoc. reflexivity.
    + rewrite HL, length_imap, Hperm, length_seq. reflexivity.
    + exact HL.
Qed.


End WorkerTheorems.

Lemma control_fan_mode_sets_mode_only_witness :
  stdout (snd (control_fan_mode echo_network "10.0.0.1" "admin" "admin" "auto"
                 initial_process)) =
    [ "response: ok";
      "Completed fan control for node 10.0.0.1 in auto mode" ].
Proof.
  destruct (proj1 (control_fan_mode_sets_mode_only echo_network
                     "10.0.0.1" "admin" "admin" "auto" initial_process)
              ltac:(vm_compute; reflexivity))
    as (r1 & rs & resp & cookie & tok & csrf & mresp & H).
  cbv zeta in H. destruct H as (_ & _ & _ & _ & _ & _ & Hm & _ & _ & Hout).
  rewrite Hout. injection Hm as <-. reflexivity.
Defined.

(** ** From the command line to the wire *)

Lemma resolve_hosts_rate (rate fans : Z) (nodes : list Z) :
  Forall (fun a => wa_rate a = rate /\ wa_fans a = fans)
    (fst (resolve_hosts rate fans nodes)).
Proof.
  induction nodes as [|n nodes IH]; simpl; [constructor|].
  destruct (resolve_hosts rate fans nodes) as [hosts out].
  destruct (node_hosts !! n) as [[|c h]|]; simpl in *; auto.
Qed.

Lemma duty_of_worker_request (self : Fans) (rate : Z) (q : request) (d : pyval) :
  worker_request self rate q ->
  req_payload q = JsonData [("duty", d)] -> d = PInt rate.
Proof.
  intros [[h ->]|[(rs & h & ->)|[[h ->]|(h & i & ->)]]]; simpl;
    intros H; try discriminate.
  injection H as <-. reflexivity.
Qed.

(** The rate of the command line is the duty on the wire: in every worker
    [main] starts, each request that carries a duty carries the rate
    [main] settled on, which is the second argument whenever that is the
    numeral of an integer, negative or above 100 included, and 20 when
    there is none. *)
Theorem cli_rate_is_the_duty_sent :
  (forall (worlds : nat -> world) prog args k w q d,
     main_workers (main worlds prog args) !! k = Some w ->
     q ∈ wire (snd w) ->
     req_payload q = JsonData [("duty", d)] ->
     d = PInt (set_rate (main_settings prog args))) /\
  (forall prog spec v rest,
     set_rate (main_settings prog (spec :: Py.str_int v :: rest)) = v) /\
  (forall prog, set_rate (main_settings prog []) = 20) /\
  (forall prog spec, set_rate (main_settings prog [spec]) = 20).
Proof.
  split_and!.
  - intros worlds prog args k w q d Hw Hq Hd. unfold main in Hw.
    pose proof (resolve_hosts_rate (set_rate (main_settings prog args)) 12
                  (set_nodes (main_settings prog args))) as Hrate.
    destruct (resolve_hosts _ _ _) as [hosts out].
    cbn [main_workers fst] in *. rewrite list_lookup_imap in Hw.
    destruct (hosts !! k) as [a|] eqn:Ha; [|discriminate].
    injection Hw as <-.
    rewrite Forall_forall in Hrate.
    destruct (Hrate a) as [Hr _];
      [eapply list_elem_of_lookup_2; eassumption|].
    unfold run_worker in Hq.
    destruct (control_fan_requests (world_net (worlds k))
                (world_sched (worlds k)) (wa_host a) (wa_username a)
                (wa_password a) (wa_rate a) (wa_fans a) initial_process)
      as (new & Hwire & Hall & _).
    cbv zeta in Hwire. rewrite Hwire in Hq. simpl in Hq.
    rewrite Forall_forall in Hall. rewrite <- Hr.
    eapply duty_of_worker_request; [apply Hall; exact Hq | exact Hd].
  - intros prog spec v rest. rewrite main_settings_cons. cbv zeta.
    cbn [set_rate]. unfold select_rate. rewrite int_str_int_Z. reflexivity.
  - reflexivity.
  - intros prog spec. rewrite main_settings_cons. reflexivity.
Qed.

Lemma cli_rate_is_the_duty_sent_witness :
  PInt (-5) = PInt (set_rate (main_settings "fan.py" ["2"; "-5"])).
Proof.
  set (w := run_worker (World echo_network (fun _ => O))
              (configured_args (-5) 12)).
  set (q := fan_request (Build_Fans "IP_ADDRESS" "admin" "admin") (-5)
              (session_headers "abc123" (PStr "t0k3n") initial_headers) 0).
  apply (proj1 cli_rate_is_the_duty_sent
           (fun _ => World echo_network (fun _ => O)) "fan.py" ["2"; "-5"]
           0%nat w q (PInt (-5))).
  - vm_compute. reflexivity.
  - apply (list_elem_of_lookup_2 _ 3). vm_compute. reflexivity.
  - reflexivity.
Defined.

(** ** Further examples on the mocked BMCs *)

Lemma change_fans_prints_one_line_per_fan_witness :
  length (stdout (snd (change_fans echo_network (fun k => k)
                         (Build_Fans "h" "admin" "admin") 30 3
                         initial_process))) = 3%nat.
Proof.
  destruct (proj1 (change_fans_prints_one_line_per_fan echo_network
                     (Build_Fans "h" "admin" "admin") 30 (fun k => k) 3
                     initial_process))
    as (order & L & _ & _ & Hout & _ & Hlen).
  rewrite Hout. simpl. exact Hlen.
Defined.

Lemma control_fan_extends_control_fan_mode_witness :
  let net := flaky_network "https://10.0.0.1/api/session" in
  control_fan net (fun k => k) "10.0.0.1" "admin" "admin" 30 3 initial_process =
  control_fan_mode net "10.0.0.1" "admin" "admin" "manual" initial_process.
Proof.
  intros net.
  apply (proj1 (control_fan_extends_control_fan_mode net (fun k => k)
                  "10.0.0.1" "admin" "admin" 30 3 initial_process)
           (Exn "ConnectionError" "connection refused")).
  vm_compute. reflexivity.
Defined.

Lemma control_fan_sends_only_its_requests_witness :
  length (wire (snd (control_fan echo_network (fun k => k)
                       "10.0.0.1" "admin" "admin" 30 3 initial_process))) =
    6%nat.
Proof.
  destruct (control_fan_sends_only_its_requests echo_network (fun k => k)
              "10.0.0.1" "admin" "admin" 30 3 initial_process)
    as (new & Hwire & _ & _ & _ & Hlen).
  rewrite Hwire. simpl. apply Hlen. vm_compute. reflexivity.
Defined.

Lemma control_fan_output_witness :
  exists L,
    stdout (snd (control_fan echo_network (fun k => k)
                   "10.0.0.1" "admin" "admin" 30 3 initial_process)) =
      (["response: ok"] ++ L
       ++ ["Completed fan control for node 10.0.0.1"])%list /\
    length L = 3%nat.
Proof.
  destruct (proj2 (control_fan_output echo_network (fun k => k)
                     "10.0.0.1" "admin" "admin" 30 3 initial_process)
              ltac:(vm_compute; reflexivity))
    as (rs & tok & csrf & mresp & order & L & H).
  cbv zeta in H. destruct H as (Hm & _ & _ & _ & Hout & Hlen & _).
  exists L. split; [|exact Hlen].
  rewrite Hout. injection Hm as <-. reflexivity.
Defined.


(** A challenge that cannot be had stops the worker at once: when
    [get_random] raises, because the transport does or because the reply
    has no [random] field ([KeyError]), [control_fan] and
    [control_fan_mode] raise the same exception after that single request,
    having printed nothing and left the header map as it was. *)
Theorem failed_challenge_stops_worker (net : network) (sched : nat -> nat)
    (host username password mode : string) (rate fans : Z) (p : process) :
  let self := Build_Fans host username password in
  let q1 := random_request self (Fans_headers p) in
  let stopped := Process (Fans_headers p) (wire p ++ [q1])%list (stdout p) in
  (forall e,
     fst (get_random net self p) = Raise e ->
     control_fan net sched host username password rate fans p
       = (Raise e, stopped) /\
     control_fan_mode net host username password mode p = (Raise e, stopped)) /\
  (forall e, net (wire p) q1 = Raise e -> fst (get_random net self p) = Raise e) /\
  (forall resp d,
     net (wire p) q1 = Ok resp -> resp_json resp = BodyDict d ->
     d !! "random" = None ->
     fst (get_random net self p) = Raise (KeyError "random")).
Proof.
  intros self q1 stopped. split_and!.
  - intros e He. unfold control_fan, control_fan_mode, bind. fold self.
    rewrite get_random_eq in *. cbv zeta in *. fold q1 in He |- *.
    destruct (net (wire p) q1) as [resp|e1]; cbn [fst] in He.
    + rewrite He. split; reflexivity.
    + injection He as ->. split; reflexivity.
  - intros e He. rewrite get_random_eq. cbv zeta. fold q1. rewrite He.
    reflexivity.
  - intros resp d Hnet Hjson Hd. rewrite get_random_eq. cbv zeta. fold q1.
    rewrite Hnet. unfold json_item. rewrite Hjson, Hd. reflexivity.
Qed.

Lemma failed_challenge_stops_worker_witness :
  fst (control_fan empty_reply_network (fun k => k) "h" "admin" "admin" 30 3
         initial_process) = Raise (KeyError "random").
Proof.
  pose proof (failed_challenge_stops_worker empty_reply_network (fun k => k)
                "h" "admin" "admin" "manual" 30 3 initial_process) as H.
  cbv zeta in H. destruct H as (Hstop & _ & Hmissing).
  rewrite (proj1 (Hstop (KeyError "random")
                    (Hmissing _ ∅ eq_refl eq_refl eq_refl))).
  reflexivity.
Defined.
